(** * The Number Format Game: the persistent high-score ledger

    A shallow embedding of [NumberFormatGame.ino].  The sketch keeps its
    five best scores in EEPROM cells 0..4 and shows them on a 16x2 LCD;
    [showHighScores] updates and prints the ledger at the end of every
    game, [debugMode] can write the default scores back.

    The embedding keeps the sketch's globals in a record, threads that
    record through a small state monad, and logs every access to the
    hardware (EEPROM, LCD, delays) in a chronological trace, so that
    statements about what is written, read or displayed, and in which
    order, are statements about that trace. *)

From Stdlib Require Import ZArith List String Ascii Bool Lia.
From Stdlib Require Import Permutation.
Import ListNotations.

Local Open Scope Z_scope.

(** ** Machine integers *)

(** Conversion to [uint8_t] (the type of an EEPROM cell, of the value
    argument of [EEPROM.write] and of the LCD coordinates). *)
Definition uint8 (z : Z) : Z := z mod 256.

(** Conversion to the 16-bit [int] of the AVR target. *)
Definition int16 (z : Z) : Z := (z + 32768) mod 65536 - 32768.

(** ** Hardware events *)

Inductive event : Type :=
| EepromRead (addr : nat) (val : Z)      (* EEPROM.read(addr) returned val *)
| EepromWrite (addr : nat) (val : Z)     (* EEPROM.write(addr, val) *)
| LcdBegin (cols rows : Z)               (* lcd.begin(cols, rows) *)
| LcdClear                               (* lcd.clear() *)
| LcdSetCursor (col row : Z)             (* lcd.setCursor(col, row) *)
| LcdCursor (on : bool)                  (* lcd.cursor() / lcd.noCursor() *)
| LcdPrint (text : string)               (* lcd.print of a String or a char *)
| LcdPrintNum (n : Z)                    (* lcd.print of a number, in decimal *)
| Delay (ms : Z).                        (* delay(ms) *)

(** ** The state of the sketch *)

Record sketch : Type := mkSketch {
  score : Z;              (* int score *)
  answer : string;        (* String answer *)
  headerLen : Z;          (* int headerLen *)
  eeprom : nat -> Z;      (* the EEPROM, one uint8_t per address *)
  keypad : list ascii;    (* what the coming keypad.getKey() calls return *)
  rng : list Z;           (* what the coming raw random() draws return *)
  trace : list event      (* hardware events so far, oldest first *)
}.

Definition set_score (v : Z) (st : sketch) : sketch :=
  mkSketch v (answer st) (headerLen st) (eeprom st) (keypad st) (rng st) (trace st).
Definition set_answer (v : string) (st : sketch) : sketch :=
  mkSketch (score st) v (headerLen st) (eeprom st) (keypad st) (rng st) (trace st).
Definition set_headerLen (v : Z) (st : sketch) : sketch :=
  mkSketch (score st) (answer st) v (eeprom st) (keypad st) (rng st) (trace st).
Definition set_eeprom (v : nat -> Z) (st : sketch) : sketch :=
  mkSketch (score st) (answer st) (headerLen st) v (keypad st) (rng st) (trace st).
Definition set_keypad (v : list ascii) (st : sketch) : sketch :=
  mkSketch (score st) (answer st) (headerLen st) (eeprom st) v (rng st) (trace st).
Definition set_rng (v : list Z) (st : sketch) : sketch :=
  mkSketch (score st) (answer st) (headerLen st) (eeprom st) (keypad st) v (trace st).
Definition set_trace (v : list event) (st : sketch) : sketch :=
  mkSketch (score st) (answer st) (headerLen st) (eeprom st) (keypad st) (rng st) v.

(** One EEPROM cell replaced. *)
Definition poke (m : nat -> Z) (addr : nat) (v : Z) : nat -> Z :=
  fun a => if Nat.eqb a addr then v else m a.

(** ** The monad: state passing, [None] when a polling loop runs out of fuel *)

Definition M (A : Type) : Type := sketch -> option A * sketch.

Definition ret {A} (a : A) : M A := fun st => (Some a, st).

Definition bind {A B} (m : M A) (k : A -> M B) : M B :=
  fun st => match m st with
            | (Some a, st') => k a st'
            | (None, st') => (None, st')
            end.

(** A loop that has not ended when its fuel is used up. *)
Definition spin {A} : M A := fun st => (None, st).

Definition exec {A} (m : M A) (st : sketch) : sketch := snd (m st).

Declare Scope sketch_scope.
Delimit Scope sketch_scope with sketch.
Notation "x <- m ;; k" := (bind m (fun x => k))
  (at level 61, m at next level, right associativity) : sketch_scope.
Notation "m ;; k" := (bind m (fun _ => k))
  (at level 61, right associativity) : sketch_scope.
Local Open Scope sketch_scope.

Definition when (b : bool) (m : M unit) : M unit := if b then m else ret tt.

Definition emit (e : event) : M unit :=
  fun st => (Some tt, set_trace (trace st ++ [e]) st).

(** ** The libraries the sketch calls *)

Definition EEPROM_read (addr : nat) : M Z :=
  fun st => (Some (eeprom st addr),
             set_trace (trace st ++ [EepromRead addr (eeprom st addr)]) st).

(** [void write(int idx, uint8_t val)]: the value is converted to a byte
    at the call. *)
Definition EEPROM_write (addr : nat) (val : Z) : M unit :=
  fun st => (Some tt,
             set_trace (trace st ++ [EepromWrite addr (uint8 val)])
               (set_eeprom (poke (eeprom st) addr (uint8 val)) st)).

Definition lcd_begin (c r : Z) : M unit := emit (LcdBegin (uint8 c) (uint8 r)).
Definition lcd_clear : M unit := emit LcdClear.
Definition lcd_setCursor (c r : Z) : M unit := emit (LcdSetCursor (uint8 c) (uint8 r)).
Definition lcd_cursor : M unit := emit (LcdCursor true).
Definition lcd_noCursor : M unit := emit (LcdCursor false).
Definition lcd_print (s : string) : M unit := emit (LcdPrint s).
Definition lcd_printNum (n : Z) : M unit := emit (LcdPrintNum n).
Definition delay (ms : Z) : M unit := emit (Delay ms).

Definition NO_KEY : ascii := Ascii.zero.

(** [keypad.getKey()]: the next polled key, [NO_KEY] when nothing is
    pressed (and for ever once the recorded input is used up). *)
Definition keypad_getKey : M ascii :=
  fun st => match keypad st with
            | [] => (Some NO_KEY, st)
            | k :: rest => (Some k, set_keypad rest st)
            end.

(** [random(howsmall, howbig)] of the Arduino core: [howsmall] when the
    range is empty, else [random() % diff + howsmall], the raw [random()]
    being the next recorded draw (0 once the record is used up). *)
Definition random (howsmall howbig : Z) : M Z :=
  fun st =>
    if howbig <=? howsmall then (Some howsmall, st)
    else match rng st with
         | [] => (Some howsmall, st)
         | r :: rest => (Some (r mod (howbig - howsmall) + howsmall), set_rng rest st)
         end.

Definition get_score : M Z := fun st => (Some (score st), st).
Definition put_score (v : Z) : M unit := fun st => (Some tt, set_score v st).
Definition get_answer : M string := fun st => (Some (answer st), st).
Definition put_answer (v : string) : M unit := fun st => (Some tt, set_answer v st).
Definition get_headerLen : M Z := fun st => (Some (headerLen st), st).
Definition put_headerLen (v : Z) : M unit := fun st => (Some tt, set_headerLen v st).

(** [for (int i = from; i < from + n; i++) body(i)] *)
Fixpoint for_up (from n : nat) (body : nat -> M unit) : M unit :=
  match n with
  | O => ret tt
  | S n' => body from ;; for_up (S from) n' body
  end.

(** ** Globals of the sketch *)

Definition numAmount : Z := 10.
Definition hexHead : string := "HEX: 0x".
Definition decHead : string := "DEC: ".
Definition binHead : string := "BIN: ".

Definition highscore : list Z := [10; 7; 5; 4; 2].

Definition hexNums : list string :=
  ["AA"; "12"; "B6"; "14"; "C9"; "09"; "0D"; "1B"; "58"; "96"]%string.
Definition decNums : list string :=
  ["170"; "18"; "182"; "20"; "201"; "9"; "13"; "27"; "88"; "150"]%string.
Definition binNums : list string :=
  ["10101010"; "10010"; "10110110"; "10100"; "11001001"; "1001"; "1101";
   "11011"; "1011000"; "10010110"]%string.

(** ** The high-score ledger *)

(** The first loop of [showHighScores], entered with [i = k - 1]:
    [for (...; i >= 0; i--) if (score > EEPROM.read(i)) {...} else break;] *)
Fixpoint showHighScores_scan (k : nat) : M unit :=
  match k with
  | O => ret tt
  | S i =>
      sc <- get_score ;;
      v <- EEPROM_read i ;;
      if sc >? v then
        when (Nat.ltb i 4) (EEPROM_write i (Z.of_nat i + 1)) ;;
        sc' <- get_score ;;
        EEPROM_write i sc' ;;
        showHighScores_scan i
      else ret tt
  end.

(** The last lines of [showHighScores]: the ledger put on the display. *)
Definition showHighScores_render : M unit :=
  lcd_clear ;;
  lcd_print "High scores: " ;;
  lcd_setCursor 0 1 ;;
  for_up 0 5 (fun i => v <- EEPROM_read i ;; lcd_printNum v ;; lcd_print " ").

Definition showHighScores : M unit :=
  sc <- get_score ;;
  top <- EEPROM_read 5 ;;
  when (sc >? top)
    (lcd_clear ;; lcd_print "New High Score!" ;; delay 1000) ;;
  showHighScores_scan 5 ;;
  showHighScores_render.

(** ** The rest of the sketch *)

Definition setup : M unit :=
  lcd_begin 16 2 ;;
  lcd_setCursor 0 0.

Definition fullPagePrint (line1 line2 : string) : M unit :=
  lcd_clear ;;
  lcd_print line1 ;;
  lcd_setCursor 0 1 ;;
  lcd_print line2.

Definition is_key (c k : ascii) : bool := Ascii.eqb c k.

(** [numFormatA] redrawn [while (numFormatA == numFormatQ)]. *)
Fixpoint printQuestion_redraw (fuel : nat) (numFormatQ numFormatA : Z) : M Z :=
  if numFormatA =? numFormatQ then
    match fuel with
    | O => spin
    | S fuel' =>
        a <- random 1 4 ;;
        printQuestion_redraw fuel' numFormatQ a
    end
  else ret numFormatA.

Definition table_at (table : list string) (numIdx : Z) : string :=
  nth (Z.to_nat (numIdx - 1)) table EmptyString.

Definition strlen (s : string) : Z := Z.of_nat (String.length s).

Definition printQuestion (fuel : nat) : M unit :=
  q <- random 1 4 ;;
  a0 <- random 1 4 ;;
  a <- printQuestion_redraw fuel q a0 ;;
  numIdx <- random 1 (numAmount + 1) ;;
  lcd_clear ;;
  (if q =? 1 then lcd_print hexHead ;; lcd_print (table_at hexNums numIdx)
   else if q =? 2 then lcd_print decHead ;; lcd_print (table_at decNums numIdx)
   else if q =? 3 then lcd_print binHead ;; lcd_print (table_at binNums numIdx)
   else ret tt) ;;
  lcd_setCursor 0 1 ;;
  lcd_print "To " ;;
  (if a =? 1 then
     lcd_print hexHead ;; put_headerLen (strlen hexHead) ;;
     put_answer (table_at hexNums numIdx)
   else if a =? 2 then
     lcd_print decHead ;; put_headerLen (strlen decHead) ;;
     put_answer (table_at decNums numIdx)
   else if a =? 3 then
     lcd_print binHead ;; put_headerLen (strlen decHead) ;;
     put_answer (table_at binNums numIdx)
   else ret tt).

(** [input.remove(input.length() - 1)] *)
Definition drop_last (s : string) : string :=
  substring 0 (String.length s - 1) s.

(** The polling loop of [getInput]: [while (key != '*') {...}]. *)
Fixpoint getInput_poll (fuel : nat) (input : string) (key : ascii) : M string :=
  if is_key key "*" then ret input
  else
    match fuel with
    | O => spin
    | S fuel' =>
        key' <- keypad_getKey ;;
        if is_key key' "#" then
          if 0 <? strlen input then
            let input' := drop_last input in
            h <- get_headerLen ;;
            lcd_setCursor (strlen input' + h + 3) 1 ;;
            lcd_print " " ;;
            lcd_setCursor (strlen input' + h + 3) 1 ;;
            getInput_poll fuel' input' key'
          else getInput_poll fuel' input key'
        else if negb (is_key key' NO_KEY) && negb (is_key key' "*") then
          lcd_print (String key' EmptyString) ;;
          getInput_poll fuel' (input ++ String key' EmptyString) key'
        else getInput_poll fuel' input key'
    end.

Definition getInput (fuel : nat) : M string :=
  getInput_poll fuel EmptyString " "%char.

Definition gameLoop (fuel : nat) : M bool :=
  printQuestion fuel ;;
  lcd_cursor ;;
  input <- getInput fuel ;;
  lcd_noCursor ;;
  lcd_clear ;;
  expected <- get_answer ;;
  success <-
    (if negb (String.eqb input expected) then
       lcd_print "Incorrect!" ;;
       delay 2000 ;;
       fullPagePrint "Answer was: " expected ;;
       ret false
     else
       lcd_print "Correct!" ;;
       lcd_setCursor 0 1 ;;
       lcd_print "+1 point" ;;
       sc <- get_score ;;
       put_score (int16 (sc + 1)) ;;
       ret true) ;;
  delay 2000 ;;
  ret success.

(** The first loop of [loop]: wait for the [*] key. *)
Fixpoint loop_wait (fuel : nat) (key : ascii) : M unit :=
  if is_key key "*" then ret tt
  else
    match fuel with
    | O => spin
    | S fuel' => key' <- keypad_getKey ;; loop_wait fuel' key'
    end.

(** The second loop of [loop]: questions until the first wrong answer. *)
Fixpoint loop_play (inner fuel : nat) : M unit :=
  match fuel with
  | O => spin
  | S fuel' =>
      ok <- gameLoop inner ;;
      if ok then
        lcd_clear ;;
        lcd_print "Score: " ;;
        sc <- get_score ;;
        lcd_printNum sc ;;
        delay 1500 ;;
        loop_play inner fuel'
      else ret tt
  end.

Definition loop (fuel : nat) : M unit :=
  put_score 0 ;;
  fullPagePrint "Press * to play" "DEC/HEX/BIN Game" ;;
  loop_wait fuel " "%char ;;
  fullPagePrint "* to enter," "# to backspace" ;;
  delay 3000 ;;
  lcd_clear ;;
  loop_play fuel fuel ;;
  lcd_clear ;;
  lcd_print "Final Score: " ;;
  sc <- get_score ;;
  lcd_printNum sc ;;
  delay 1500 ;;
  showHighScores ;;
  delay 3000.

(** The [*] branch of [debugMode], up to its call of [loop]. *)
Definition debugMode_reset : M unit :=
  for_up 0 5 (fun i => EEPROM_write i (nth i highscore 0)) ;;
  fullPagePrint "Scores reset to" "default values." ;;
  delay 3000.

(** The loop of [debugMode]: [while (key != '#' || key != '*') {...}]. *)
Fixpoint debugMode_poll (fuel : nat) (inner : nat) (key : ascii) : M unit :=
  if negb (is_key key "#") || negb (is_key key "*") then
    match fuel with
    | O => spin
    | S fuel' =>
        key' <- keypad_getKey ;;
        (if is_key key' "*" then
           debugMode_reset ;;
           loop inner
         else if is_key key' "#" then
           fullPagePrint "Scores not reset." "Returning..." ;;
           delay 3000 ;;
           loop inner
         else ret tt) ;;
        debugMode_poll fuel' inner key'
    end
  else ret tt.

Definition debugMode (fuel : nat) : M unit :=
  showHighScores ;;
  delay 3000 ;;
  fullPagePrint "Reset scores?" "(*) YES, (#) NO" ;;
  debugMode_poll fuel fuel " "%char.

(** ** Observations on a state *)

(** The five ranked cells, rank 0 first. *)
Definition leaderboard (st : sketch) : list Z :=
  map (eeprom st) [0; 1; 2; 3; 4]%nat.

(** [leaderboard[i] >= leaderboard[i+1]] for [i] in 0..3. *)
Definition ranked (m : nat -> Z) : Prop :=
  forall i, (i < 4)%nat -> m (S i) <= m i.

(** A session that ends with [finalScore]: [loop] leaves the count of
    correct answers in [score] and calls [showHighScores]. *)
Definition recordSession (finalScore : Z) : M unit :=
  put_score finalScore ;;
  showHighScores.

(** The states after each of a sequence of sessions. *)
Fixpoint sessions (finalScores : list Z) (st : sketch) : list sketch :=
  match finalScores with
  | [] => []
  | s :: rest =>
      let st' := exec (recordSession s) st in
      st' :: sessions rest st'
  end.

(** A state at power-on, nothing shown yet and no input recorded: the
    EEPROM holds [board] in its first cells and [cell5] in every other
    cell. *)
Definition boot (board : list Z) (cell5 : Z) (sc : Z) : sketch :=
  mkSketch sc EmptyString 0 (fun a => nth a board cell5) [] [] [].

(** ** What the scan does, in closed form *)

(** The number of cells left above the cell at which the scan stops:
    cells [scan_stop .. k-1] are beaten by the score, cell [scan_stop - 1]
    (when there is one) is the one that ends the scan. *)
Fixpoint scan_stop (k : nat) (sc : Z) (m : nat -> Z) : nat :=
  match k with
  | O => O
  | S i => if sc >? m i then scan_stop i sc m else S i
  end.

(** The EEPROM accesses of one iteration whose test succeeds. *)
Definition overwrite (sc : Z) (m : nat -> Z) (i : nat) : list event :=
  EepromRead i (m i)
  :: (if Nat.ltb i 4 then [EepromWrite i (uint8 (Z.of_nat i + 1))] else [])
  ++ [EepromWrite i (uint8 sc)].

(** The EEPROM accesses of the whole scan, on the cells as they were
    when the scan began. *)
Fixpoint scan_trace (k : nat) (sc : Z) (m : nat -> Z) : list event :=
  match k with
  | O => []
  | S i => if sc >? m i then overwrite sc m i ++ scan_trace i sc m
           else [EepromRead i (m i)]
  end.

(** The cells after the scan. *)
Definition scan_cells (k : nat) (sc : Z) (m : nat -> Z) : nat -> Z :=
  fun a => if Nat.leb (scan_stop k sc m) a && Nat.ltb a k then uint8 sc else m a.

(** The events of [showHighScores_render] on cells [m]. *)
Definition render_trace (m : nat -> Z) : list event :=
  [LcdClear; LcdPrint "High scores: "; LcdSetCursor 0 1]
  ++ flat_map (fun i => [EepromRead i (m i); LcdPrintNum (m i); LcdPrint " "])
       [0; 1; 2; 3; 4]%nat.

Definition notify_trace : list event :=
  [LcdClear; LcdPrint "New High Score!"; Delay 1000].

(** The events [showHighScores] adds to the trace, from the score and
    the cells it starts with. *)
Definition showHighScores_trace (sc : Z) (m : nat -> Z) : list event :=
  [EepromRead 5 (m 5%nat)]
  ++ (if sc >? m 5%nat then notify_trace else [])
  ++ scan_trace 5 sc m
  ++ render_trace (scan_cells 5 sc m).

(** ** Observations on a trace *)

Definition is_write (e : event) : bool :=
  match e with EepromWrite _ _ => true | _ => false end.

Definition writes_to (a : nat) (e : event) : bool :=
  match e with EepromWrite a' _ => Nat.eqb a' a | _ => false end.

(** Every EEPROM write of the trace is at an address the predicate accepts. *)
Definition writes_only (p : nat -> bool) (tr : list event) : Prop :=
  Forall (fun e => match e with EepromWrite a _ => p a = true | _ => True end) tr.

Definition notified (tr : list event) : bool :=
  existsb (fun e => match e with
                    | LcdPrint s => String.eqb s "New High Score!"
                    | _ => false
                    end) tr.

(** The values a trace shows on the display as numbers, in order. *)
Definition shown (tr : list event) : list Z :=
  flat_map (fun e => match e with LcdPrintNum n => [n] | _ => [] end) tr.

(** Two states with the same globals, inputs left and EEPROM contents:
    they differ by the trace at most. *)
Definition same_store (st st' : sketch) : Prop :=
  score st' = score st /\ answer st' = answer st /\
  headerLen st' = headerLen st /\ keypad st' = keypad st /\
  rng st' = rng st /\ eeprom st' = eeprom st.

(** The events a run of [m] from [st] adds to the trace. *)
Definition run_trace {A} (m : M A) (st : sketch) : list event :=
  skipn (List.length (trace st)) (trace (exec m st)).

(** [m] keeps the relation [R] between the state it starts from and the
    state it leaves, whether it returns or runs out of fuel. *)
Definition keeps (R : sketch -> sketch -> Prop) {A} (m : M A) : Prop :=
  forall st, R st (exec m st).

(** [st'] comes after [st] in a run that wrote to the ledger cells 0..4
    at most: the trace has grown by events whose writes are all to
    addresses below 5, and every cell from address 5 up is as it was. *)
Definition ledger_frame (st st' : sketch) : Prop :=
  (exists tr, trace st' = trace st ++ tr /\
              writes_only (fun a => Nat.ltb a 5) tr) /\
  forall a, (5 <= a)%nat -> eeprom st' a = eeprom st a.

(** Every cell holds a byte. *)
Definition bytes (m : nat -> Z) : Prop := forall a, 0 <= m a < 256.

(** A ledger of bytes in rank order stays one. *)
Definition ledger_sound (st st' : sketch) : Prop :=
  bytes (eeprom st) /\ ranked (eeprom st) ->
  bytes (eeprom st') /\ ranked (eeprom st').

(** A run of [m] from [st] never writes to EEPROM cell 5. *)
Definition cell5_untouched {A} (m : M A) (st : sketch) : Prop :=
  existsb (writes_to 5) (run_trace m st) = false /\
  eeprom (exec m st) 5%nat = eeprom st 5%nat.

(** ** Observations on the game *)

(** A key that [getInput] takes as a character of the answer. *)
Definition ordinary (k : ascii) : bool :=
  negb (is_key k "#") && negb (is_key k NO_KEY) && negb (is_key k "*").

(** The text after one poll of the loop of [getInput] returned key [k]. *)
Definition getInput_edit (input : string) (k : ascii) : string :=
  if is_key k "#" then
    if 0 <? strlen input then drop_last input else input
  else if negb (is_key k NO_KEY) && negb (is_key k "*") then
    input ++ String k EmptyString
  else input.

(** The text after a sequence of polls. *)
Definition typed (keys : list ascii) (input : string) : string :=
  fold_left getInput_edit keys input.

(** What one poll of the loop of [getInput] puts on the display. *)
Definition getInput_echo (h : Z) (input : string) (k : ascii) : list event :=
  if is_key k "#" then
    if 0 <? strlen input then
      [LcdSetCursor (uint8 (strlen (drop_last input) + h + 3)) (uint8 1);
       LcdPrint " ";
       LcdSetCursor (uint8 (strlen (drop_last input) + h + 3)) (uint8 1)]
    else []
  else if negb (is_key k NO_KEY) && negb (is_key k "*") then
    [LcdPrint (String k EmptyString)]
  else [].

Fixpoint echo (h : Z) (keys : list ascii) (input : string) : list event :=
  match keys with
  | [] => []
  | k :: rest => getInput_echo h input k ++ echo h rest (getInput_edit input k)
  end.

(** The three number formats, as [printQuestion] numbers them. *)
Definition header (f : Z) : string :=
  if f =? 1 then hexHead else if f =? 2 then decHead else binHead.

Definition table (f : Z) : list string :=
  if f =? 1 then hexNums else if f =? 2 then decNums else binNums.

Definition radix (f : Z) : Z :=
  if f =? 1 then 16 else if f =? 2 then 10 else 2.

(** The value of a digit [0-9A-F]. *)
Definition digit_value (c : ascii) : Z :=
  let n := Z.of_nat (nat_of_ascii c) in
  if (48 <=? n) && (n <=? 57) then n - 48
  else if (65 <=? n) && (n <=? 70) then n - 55
  else 0.

Fixpoint number_from (b acc : Z) (s : string) : Z :=
  match s with
  | EmptyString => acc
  | String c rest => number_from b (acc * b + digit_value c) rest
  end.

(** The number a string of digits denotes in format [f]. *)
Definition number_of (f : Z) (s : string) : Z := number_from (radix f) 0 s.

(** How many times a trace prints the text [s]. *)
Definition printed (s : string) (tr : list event) : nat :=
  List.length (filter (fun e => match e with
                                | LcdPrint t => String.eqb t s
                                | _ => false
                                end) tr).

(** The events of [printQuestion] for question format [q], answer format
    [a] and table index [idx]. *)
Definition printQuestion_trace (q a idx : Z) : list event :=
  [LcdClear; LcdPrint (header q); LcdPrint (table_at (table q) idx);
   LcdSetCursor 0 1; LcdPrint "To "; LcdPrint (header a)].

(** The state [printQuestion] leaves for these choices, [r] being the
    draws left. *)
Definition printQuestion_state (q a idx : Z) (r : list Z) (st : sketch) : sketch :=
  set_answer (table_at (table a) idx)
    (set_headerLen (strlen (header a))
       (set_trace (trace st ++ printQuestion_trace q a idx) (set_rng r st))).

(** What [gameLoop] shows once the answer is in: the verdict, and after a
    wrong answer the expected one. *)
Definition gameLoop_verdict (ok : bool) (expected : string) : list event :=
  if ok then [LcdPrint "Correct!"; LcdSetCursor 0 1; LcdPrint "+1 point"]
  else [LcdPrint "Incorrect!"; Delay 2000; LcdClear;
        LcdPrint "Answer was: "; LcdSetCursor 0 1; LcdPrint expected].

(** The events of one round of [gameLoop]: the question, the keys
    echoed, the verdict. *)
Definition gameLoop_trace (q a idx : Z) (keys : list ascii) : list event :=
  printQuestion_trace q a idx
  ++ [LcdCursor true]
  ++ echo (strlen (header a)) keys EmptyString
  ++ [LcdCursor false; LcdClear]
  ++ gameLoop_verdict (String.eqb (typed keys EmptyString)
                         (table_at (table a) idx))
       (table_at (table a) idx)
  ++ [Delay 2000].

(** The state one round of [gameLoop] leaves. *)
Definition gameLoop_state (q a idx : Z) (r : list Z) (keys rest : list ascii)
    (st : sketch) : sketch :=
  set_score
    (if String.eqb (typed keys EmptyString) (table_at (table a) idx)
     then int16 (score st + 1) else score st)
    (set_trace (trace st ++ gameLoop_trace q a idx keys)
       (set_keypad rest
          (set_answer (table_at (table a) idx)
             (set_headerLen (strlen (header a)) (set_rng r st))))).

(** What [loop] shows before the first question. *)
Definition loop_intro : list event :=
  [LcdClear; LcdPrint "Press * to play"; LcdSetCursor 0 1;
   LcdPrint "DEC/HEX/BIN Game";
   LcdClear; LcdPrint "* to enter,"; LcdSetCursor 0 1;
   LcdPrint "# to backspace"; Delay 3000; LcdClear].

(** The state in which a game starts on the default ledger, with the
    keys and the draws to come. *)
Definition game_start (keys : list ascii) (draws : list Z) : sketch :=
  mkSketch 0 EmptyString 0 (fun a => nth a highscore 255) keys draws [].

(** The state after all the sessions of a list. *)
Definition after_sessions (finalScores : list Z) (st : sketch) : sketch :=
  fold_left (fun st' s => exec (recordSession s) st') finalScores st.

(** * The door controller

    A shallow embedding of the parts of [Door_Operation_With_RFID.ino]
    that drive the door: [connect_wifi], [connect_MQTT], [door_status]
    and [setup].  The sketch has its own globals, inputs and hardware,
    so the module has its own state, events and monad, built like those
    of the game. *)

Module Door.

Inductive event : Type :=
| SerialBegin (baud : Z)                 (* Serial.begin(baud) *)
| SerialPrint (text : string)            (* Serial.print(text) *)
| SerialPrintln (text : string)          (* Serial.println(text) *)
| SerialPrintlnIP                        (* Serial.println(WiFi.localIP()) *)
| WifiBegin                              (* WiFi.begin(ssid, wifi_password) *)
| MqttConnect                            (* client.connect(clientID, ...) *)
| DisplayClear                           (* display.clearDisplay() *)
| DisplaySetTextSize (size : Z)          (* display.setTextSize(size) *)
| DisplaySetTextColor                    (* display.setTextColor(WHITE) *)
| DisplaySetCursor (x y : Z)             (* display.setCursor(x, y) *)
| DisplayPrint (text : string)           (* display.print(text) *)
| DisplayPrintln (text : string)         (* display.println(text) *)
| DisplayShow                            (* display.display() *)
| ServoAttach                            (* door.attach(SERV_PIN) *)
| ServoWrite (angle : Z)                 (* door.write(angle) *)
| SpiBegin                               (* SPI.begin() *)
| RfidInit                               (* mfrc522.PCD_Init() *)
| PinModeInput                           (* pinMode(PIR_PIN, INPUT) *)
| Delay (ms : Z).                        (* delay(ms) *)

Record state : Type := mkState {
  pos : Z;               (* int pos, the servo rotation *)
  pirStat : Z;           (* int pirStat *)
  wifi : list bool;      (* the coming WiFi.status() == WL_CONNECTED *)
  pir : list bool;       (* the coming digitalRead(PIR_PIN) == HIGH *)
  trace : list event     (* hardware events so far, oldest first *)
}.

Definition set_pos (v : Z) (st : state) : state :=
  match st with mkState _ s w r t => mkState v s w r t end.
Definition set_pirStat (v : Z) (st : state) : state :=
  match st with mkState p _ w r t => mkState p v w r t end.
Definition set_wifi (v : list bool) (st : state) : state :=
  match st with mkState p s _ r t => mkState p s v r t end.
Definition set_pir (v : list bool) (st : state) : state :=
  match st with mkState p s w _ t => mkState p s w v t end.
Definition set_trace (v : list event) (st : state) : state :=
  match st with mkState p s w r _ => mkState p s w r v end.

(** State passing; [None] for a run that does not return ([for(;;);], or
    a loop that still waits when its fuel is used up). *)
Definition M (A : Type) : Type := state -> option A * state.

Definition ret {A} (a : A) : M A := fun st => (Some a, st).

Definition bind {A B} (m : M A) (k : A -> M B) : M B :=
  fun st => match m st with
            | (Some a, st') => k a st'
            | (None, st') => (None, st')
            end.

Definition spin {A} : M A := fun st => (None, st).

Definition exec {A} (m : M A) (st : state) : state := snd (m st).

Definition run_trace {A} (m : M A) (st : state) : list event :=
  skipn (List.length (trace st)) (trace (exec m st)).

Declare Scope door_scope.
Delimit Scope door_scope with door.
Notation "x <- m ;; k" := (bind m (fun x => k))
  (at level 61, m at next level, right associativity) : door_scope.
Notation "m ;; k" := (bind m (fun _ => k))
  (at level 61, right associativity) : door_scope.
Local Open Scope door_scope.

Definition emit (e : event) : M unit :=
  fun st => match st with
            | mkState p s w r t => (Some tt, mkState p s w r (t ++ [e]))
            end.

Definition delay (ms : Z) : M unit := emit (Delay ms).

Definition put_pos (v : Z) : M unit :=
  fun st => match st with
            | mkState _ s w r t => (Some tt, mkState v s w r t)
            end.

Definition put_pirStat (v : Z) : M unit :=
  fun st => match st with
            | mkState p _ w r t => (Some tt, mkState p v w r t)
            end.

Definition HIGH : Z := 1.
Definition LOW : Z := 0.

(** [WiFi.status() == WL_CONNECTED]: the next recorded answer, not
    connected once the record is used up. *)
Definition WiFi_connected : M bool :=
  fun st => match st with
            | mkState p s [] r t => (Some false, mkState p s [] r t)
            | mkState p s (c :: rest) r t => (Some c, mkState p s rest r t)
            end.

(** [digitalRead(PIR_PIN)]: the next recorded reading, [LOW] once the
    record is used up. *)
Definition digitalRead_PIR : M Z :=
  fun st => match st with
            | mkState p s w [] t => (Some LOW, mkState p s w [] t)
            | mkState p s w (r :: rest) t =>
                (Some (if r then HIGH else LOW), mkState p s w rest t)
            end.

Definition ssid : string := "YourSSID".

(** The loop of [connect_wifi], entered with [offline_timer]:
    [true] when the connection is there, [false] after the [return] of
    the offline branch. *)
Fixpoint connect_wifi_wait (offline_timer : nat) : M bool :=
  connected <- WiFi_connected ;;
  if connected then ret true
  else
    delay 500 ;;
    emit (SerialPrint ".") ;;
    match offline_timer with
    | O =>
        emit (SerialPrintln "WiFi could not connect. Starting offline mode.") ;;
        emit DisplayClear ;;
        emit (DisplaySetCursor 0 10) ;;
        emit (DisplayPrint "Board is offline.") ;;
        emit DisplayShow ;;
        delay 750 ;;
        ret false
    | S timer' => connect_wifi_wait timer'
    end.

Definition connect_wifi : M unit :=
  emit (SerialPrint "Connecting to ") ;;
  emit (SerialPrintln ssid) ;;
  emit WifiBegin ;;
  online <- connect_wifi_wait 15 ;;
  if online then
    emit (SerialPrintln "WiFi connected") ;;
    emit (SerialPrint "IP address: ") ;;
    emit SerialPrintlnIP ;;
    emit DisplayClear ;;
    emit (DisplaySetCursor 0 10) ;;
    emit (DisplayPrint "Board is online.") ;;
    emit DisplayShow ;;
    delay 750
  else ret tt.

(** [connect_MQTT], [accepted] being what [client.connect] returns. *)
Definition connect_MQTT (accepted : bool) : M unit :=
  emit MqttConnect ;;
  if accepted then emit (SerialPrintln "Connected to MQTT Broker!")
  else emit (SerialPrintln "Connection to MQTT Broker failed...").

(** [for (pos = 180; pos >= 0; pos--) { door.write(pos); delay(1); }],
    entered with [pos = n - 1]. *)
Fixpoint door_status_lower (n : nat) : M unit :=
  match n with
  | O => put_pos (-1)
  | S p =>
      put_pos (Z.of_nat p) ;;
      emit (ServoWrite (Z.of_nat p)) ;;
      delay 1 ;;
      door_status_lower p
  end.

(** [for (pos = 0; pos <= 180; pos++) { door.write(pos); delay(1); }],
    entered with [pos = from] and [n] iterations to go. *)
Fixpoint door_status_raise (n from : nat) : M unit :=
  match n with
  | O => put_pos (Z.of_nat from)
  | S n' =>
      put_pos (Z.of_nat from) ;;
      emit (ServoWrite (Z.of_nat from)) ;;
      delay 1 ;;
      door_status_raise n' (S from)
  end.

Definition show_status (status motion : string) : M unit :=
  emit DisplayClear ;;
  emit (DisplaySetCursor 0 10) ;;
  emit (DisplayPrint "Door status: ") ;;
  emit (DisplayPrintln status) ;;
  emit (DisplayPrint motion) ;;
  emit DisplayShow.

(** The loop of [door_status]: [while (timeout != 0) {...}]. *)
Fixpoint door_status_hold (fuel : nat) (timeout : Z) : M unit :=
  if timeout =? 0 then ret tt
  else
    match fuel with
    | O => spin
    | S fuel' =>
        show_status "OPEN" "Motion status: OFF" ;;
        r <- digitalRead_PIR ;;
        put_pirStat r ;;
        (if r =? HIGH then show_status "OPEN" "Motion status: ON" else ret tt) ;;
        delay 1000 ;;
        door_status_hold fuel' (if r =? HIGH then 5 else timeout - 1)
    end.

(** [door_status(false)] *)
Definition door_status_closed : M unit :=
  door_status_lower 181 ;;
  emit DisplayClear ;;
  emit (DisplaySetCursor 0 10) ;;
  emit (DisplayPrint "Door status: ") ;;
  emit (DisplayPrint "CLOSED") ;;
  emit DisplayShow.

(** [door_status(isOpen)]; the fuel is for the loop of the open branch. *)
Definition door_status (fuel : nat) (isOpen : bool) : M unit :=
  if negb isOpen then door_status_closed
  else
    door_status_raise 181 0 ;;
    door_status_hold fuel 5 ;;
    door_status_closed.

(** [setup], [display_ok] being what [display.begin] returns. *)
Definition setup (display_ok : bool) : M unit :=
  emit (SerialBegin 115200) ;;
  emit ServoAttach ;;
  (if negb display_ok then
     emit (SerialPrintln "SSD1306 allocation failed") ;; spin
   else ret tt) ;;
  emit SpiBegin ;;
  emit RfidInit ;;
  delay 2000 ;;
  emit PinModeInput ;;
  emit DisplayClear ;;
  emit (DisplaySetTextSize 1) ;;
  emit DisplaySetTextColor ;;
  emit (DisplaySetCursor 0 10) ;;
  connect_wifi ;;
  door_status 0 false.

(** The angles a trace sends to the servo, in order. *)
Definition angles (tr : list event) : list Z :=
  flat_map (fun e => match e with ServoWrite a => [a] | _ => [] end) tr.

(** The waits of a trace, in milliseconds, in order. *)
Definition waits (tr : list event) : list Z :=
  flat_map (fun e => match e with Delay ms => [ms] | _ => [] end) tr.

(** The texts a trace prints on the display, in order. *)
Definition displayed (tr : list event) : list string :=
  flat_map (fun e => match e with
                     | DisplayPrint t | DisplayPrintln t => [t]
                     | _ => []
                     end) tr.

(** The positions [n-1], ..., 1, 0. *)
Definition down_from (n : nat) : list Z := map Z.of_nat (rev (seq 0 n)).

(** The positions [from], ..., [from + n - 1]. *)
Definition up_from (from n : nat) : list Z := map Z.of_nat (seq from n).

(** What one pass of the loop of [door_status] shows and waits, [moving]
    telling whether the sensor read [HIGH]. *)
Definition poll_events (moving : bool) : list event :=
  [DisplayClear; DisplaySetCursor 0 10; DisplayPrint "Door status: ";
   DisplayPrintln "OPEN"; DisplayPrint "Motion status: OFF"; DisplayShow]
  ++ (if moving then
        [DisplayClear; DisplaySetCursor 0 10; DisplayPrint "Door status: ";
         DisplayPrintln "OPEN"; DisplayPrint "Motion status: ON"; DisplayShow]
      else [])
  ++ [Delay 1000].

(** The first [n] readings of the sensor, [HIGH] as [true]. *)
Fixpoint readings (n : nat) (record : list bool) : list bool :=
  match n with
  | O => []
  | S n' =>
      match record with
      | [] => false :: readings n' []
      | r :: rest => r :: readings n' rest
      end
  end.

(** Readings that end with [quiet] times [LOW] from the start, or with
    five times [LOW] after a [HIGH]. *)
Definition settled (quiet : nat) (reads : list bool) : Prop :=
  reads = repeat false quiet \/
  exists before, reads = before ++ true :: repeat false 5.

(** What [door_status(false)] shows. *)
Definition closed_events : list event :=
  [DisplayClear; DisplaySetCursor 0 10; DisplayPrint "Door status: ";
   DisplayPrint "CLOSED"; DisplayShow].

(** One step of a sweep of the servo. *)
Definition sweep (positions : list Z) : list event :=
  flat_map (fun p => [ServoWrite p; Delay 1]) positions.

(** The polls of [WiFi.status()] that find no connection before the loop
    of [connect_wifi] is left, out of the [polls] it may take. *)
Fixpoint failed_polls (polls : nat) (record : list bool) : nat :=
  match polls with
  | O => O
  | S polls' =>
      match record with
      | [] => S (failed_polls polls' [])
      | true :: _ => O
      | false :: rest => S (failed_polls polls' rest)
      end
  end.

(** Whether one of the first [polls] polls finds the connection. *)
Definition connects_within (polls : nat) (record : list bool) : bool :=
  existsb (fun connected => connected) (firstn polls record).

(** What [connect_wifi] does on a poll without connection. *)
Definition retry_events (failed : nat) : list event :=
  List.concat (repeat [Delay 500; SerialPrint "."] failed).

(** What [connect_wifi] does once the loop is left. *)
Definition verdict_events (online : bool) : list event :=
  if online then
    [SerialPrintln "WiFi connected"; SerialPrint "IP address: ";
     SerialPrintlnIP; DisplayClear; DisplaySetCursor 0 10;
     DisplayPrint "Board is online."; DisplayShow; Delay 750]
  else
    [SerialPrintln "WiFi could not connect. Starting offline mode.";
     DisplayClear; DisplaySetCursor 0 10; DisplayPrint "Board is offline.";
     DisplayShow; Delay 750].

End Door.

(** * Proofs *)

(** ** Cells and bytes *)

Lemma uint8_range z : 0 <= uint8 z < 256.
Proof. unfold uint8. apply Z.mod_pos_bound. lia. Qed.

Lemma uint8_small z : 0 <= z < 256 -> uint8 z = z.
Proof. intros H. unfold uint8. apply Z.mod_small. exact H. Qed.

Lemma uint8_le z : 0 <= z -> uint8 z <= z.
Proof. intros H. unfold uint8. apply Z.mod_le; lia. Qed.

Lemma poke_same m a v : poke m a v a = v.
Proof. unfold poke. now rewrite Nat.eqb_refl. Qed.

Lemma poke_other m a v b : b <> a -> poke m a v b = m b.
Proof. intros H. unfold poke. apply Nat.eqb_neq in H. now rewrite H. Qed.

(** ** The scan *)

Lemma scan_stop_le k sc m : (scan_stop k sc m <= k)%nat.
Proof.
  induction k as [|i IH]; simpl; [lia|].
  destruct (sc >? m i); lia.
Qed.

(** The cells from [scan_stop] up are all below the score. *)
Lemma scan_stop_beaten k sc m t :
  (scan_stop k sc m <= t < k)%nat -> m t < sc.
Proof.
  induction k as [|i IH]; simpl; [lia|].
  destruct (sc >? m i) eqn:E.
  - intros H. destruct (Nat.eq_dec t i) as [->|Hne].
    + apply Z.gtb_lt in E. lia.
    + apply IH. lia.
  - lia.
Qed.

(** The cell just under [scan_stop] is not below the score. *)
Lemma scan_stop_holds k sc m j :
  scan_stop k sc m = S j -> sc <= m j.
Proof.
  induction k as [|i IH]; simpl; [discriminate|].
  destruct (sc >? m i) eqn:E.
  - exact IH.
  - intros [= <-]. rewrite Z.gtb_ltb in E. apply Z.ltb_ge in E. exact E.
Qed.

(** [scan_stop] is the only index with these two properties. *)
Lemma scan_stop_unique k sc m j :
  (j <= k)%nat ->
  (forall t, (j <= t < k)%nat -> m t < sc) ->
  (forall i, j = S i -> sc <= m i) ->
  scan_stop k sc m = j.
Proof.
  induction k as [|i IH]; simpl; intros Hle Hbeat Hhold; [lia|].
  destruct (sc >? m i) eqn:E.
  - destruct (Nat.eq_dec j (S i)) as [->|Hne].
    + specialize (Hhold i eq_refl). apply Z.gtb_lt in E. lia.
    + apply IH; [lia| |exact Hhold]. intros t Ht. apply Hbeat. lia.
  - rewrite Z.gtb_ltb in E. apply Z.ltb_ge in E.
    destruct (Nat.eq_dec j (S i)) as [->|Hne]; [reflexivity|].
    specialize (Hbeat i). lia.
Qed.

Lemma scan_stop_ext k sc m m' :
  (forall a, (a < k)%nat -> m' a = m a) ->
  scan_stop k sc m' = scan_stop k sc m.
Proof.
  induction k as [|i IH]; simpl; intros H; [reflexivity|].
  rewrite (H i) by lia. rewrite IH by (intros; apply H; lia). reflexivity.
Qed.

Lemma scan_trace_ext k sc m m' :
  (forall a, (a < k)%nat -> m' a = m a) ->
  scan_trace k sc m' = scan_trace k sc m.
Proof.
  induction k as [|i IH]; simpl; intros H; [reflexivity|].
  unfold overwrite. rewrite (H i) by lia.
  rewrite IH by (intros; apply H; lia). reflexivity.
Qed.

(** The trace of the scan, block by block: one [overwrite] for each
    beaten cell, from cell [k-1] down, then the read that ends the scan. *)
Lemma scan_trace_blocks k sc m :
  scan_trace k sc m =
  flat_map (overwrite sc m) (rev (seq (scan_stop k sc m) (k - scan_stop k sc m)))
  ++ match scan_stop k sc m with
     | O => []
     | S j => [EepromRead j (m j)]
     end.
Proof.
  induction k as [|i IH]; simpl scan_trace; simpl scan_stop; [reflexivity|].
  destruct (sc >? m i) eqn:E.
  - pose proof (scan_stop_le i sc m) as Hle.
    replace (S i - scan_stop i sc m)%nat with (S (i - scan_stop i sc m)) by lia.
    rewrite seq_S, rev_app_distr. simpl rev. simpl flat_map.
    replace (scan_stop i sc m + (i - scan_stop i sc m))%nat with i by lia.
    rewrite IH. simpl. rewrite <- !app_assoc. reflexivity.
  - rewrite Nat.sub_diag. reflexivity.
Qed.

Lemma scan_cells_step i sc m m' a :
  (sc >? m i) = true ->
  m' i = uint8 sc ->
  (forall b, b <> i -> m' b = m b) ->
  scan_cells i sc m' a = scan_cells (S i) sc m a.
Proof.
  intros E Hi Hother. unfold scan_cells. simpl scan_stop. rewrite E.
  rewrite (scan_stop_ext i sc m) by (intros b Hlt; apply Hother; lia).
  pose proof (scan_stop_le i sc m) as Hle.
  destruct (Nat.eq_dec a i) as [->|Hne].
  - rewrite Hi, Nat.ltb_irrefl, andb_false_r.
    replace (Nat.leb (scan_stop i sc m) i) with true
      by (symmetry; apply Nat.leb_le; lia).
    replace (Nat.ltb i (S i)) with true by (symmetry; apply Nat.ltb_lt; lia).
    reflexivity.
  - rewrite Hother by exact Hne.
    destruct (Nat.ltb a i) eqn:Eai.
    + apply Nat.ltb_lt in Eai.
      replace (Nat.ltb a (S i)) with true by (symmetry; apply Nat.ltb_lt; lia).
      reflexivity.
    + apply Nat.ltb_ge in Eai.
      replace (Nat.ltb a (S i)) with false by (symmetry; apply Nat.ltb_ge; lia).
      reflexivity.
Qed.

Lemma scan_cells_break i sc m a :
  (sc >? m i) = false -> scan_cells (S i) sc m a = m a.
Proof.
  intros E. unfold scan_cells. simpl scan_stop. rewrite E.
  destruct (Nat.leb (S i) a) eqn:E1; destruct (Nat.ltb a (S i)) eqn:E2;
    try reflexivity.
  apply Nat.leb_le in E1. apply Nat.ltb_lt in E2. lia.
Qed.

(** What [showHighScores_scan] returns and leaves behind. *)
Lemma showHighScores_scan_spec k st :
  let r := showHighScores_scan k st in
  fst r = Some tt /\
  score (snd r) = score st /\ answer (snd r) = answer st /\
  headerLen (snd r) = headerLen st /\ keypad (snd r) = keypad st /\
  rng (snd r) = rng st /\
  trace (snd r) = trace st ++ scan_trace k (score st) (eeprom st) /\
  forall a, eeprom (snd r) a = scan_cells k (score st) (eeprom st) a.
Proof.
  revert st. induction k as [|i IH]; intros [sc an hl m kp rg tr].
  - cbn. rewrite app_nil_r. repeat split.
  - cbn -[Z.gtb Nat.ltb Z.of_nat]. destruct (sc >? m i) eqn:E.
    + destruct (Nat.ltb i 4) eqn:E4; cbn -[Z.gtb Nat.ltb Z.of_nat];
        match goal with |- context [showHighScores_scan i ?s] =>
          destruct (IH s) as (R & Hs & Ha & Hh & Hk & Hr & Ht & Hm) end;
        cbn in Hs, Ha, Hh, Hk, Hr, Ht, Hm;
        (repeat split; try assumption;
         [ rewrite Ht;
           rewrite (scan_trace_ext i sc m)
             by (intros a Hlt; rewrite !poke_other by lia; reflexivity);
           simpl; rewrite <- !app_assoc; reflexivity
         | intros a; rewrite Hm; apply scan_cells_step;
           [ exact E | apply poke_same
           | intros b Hb; rewrite !poke_other by exact Hb; reflexivity ] ]).
    + cbn. repeat split. intros a. symmetry. apply scan_cells_break. exact E.
Qed.

(** ** [showHighScores] as a whole *)

Lemma run_trace_app {A} (m : M A) st tr :
  trace (exec m st) = trace st ++ tr -> run_trace m st = tr.
Proof.
  intros H. unfold run_trace. rewrite H.
  rewrite skipn_app, skipn_all, Nat.sub_diag. reflexivity.
Qed.

Lemma showHighScores_render_spec st :
  showHighScores_render st
  = (Some tt, set_trace (trace st ++ render_trace (eeprom st)) st).
Proof.
  destruct st as [sc an hl m kp rg tr]. cbn.
  rewrite <- !app_assoc. reflexivity.
Qed.

Lemma render_trace_ext m m' :
  (forall a, m' a = m a) -> render_trace m' = render_trace m.
Proof. intros H. unfold render_trace. cbn. now rewrite !H. Qed.

(** [showHighScores] always returns; it changes no global, consumes no
    input, adds [showHighScores_trace] to the trace and leaves the cells
    as its scan left them. *)
Lemma showHighScores_spec st :
  let r := showHighScores st in
  fst r = Some tt /\
  score (snd r) = score st /\ answer (snd r) = answer st /\
  headerLen (snd r) = headerLen st /\ keypad (snd r) = keypad st /\
  rng (snd r) = rng st /\
  trace (snd r) = trace st ++ showHighScores_trace (score st) (eeprom st) /\
  forall a, eeprom (snd r) a = scan_cells 5 (score st) (eeprom st) a.
Proof.
  destruct st as [sc an hl m kp rg tr].
  unfold showHighScores, showHighScores_trace.
  cbn -[showHighScores_scan showHighScores_render scan_trace render_trace Z.gtb].
  destruct (sc >? m 5%nat);
    cbn -[showHighScores_scan showHighScores_render scan_trace render_trace Z.gtb];
    unfold bind;
    match goal with |- context [showHighScores_scan 5 ?s] =>
      destruct (showHighScores_scan_spec 5 s) as (R & Hs & Ha & Hh & Hk & Hr & Ht & Hm);
      destruct (showHighScores_scan 5 s) as [[[]|] st1]; [|discriminate R]
    end;
    cbn -[scan_trace scan_cells Z.gtb] in Hs, Ha, Hh, Hk, Hr, Ht, Hm;
    rewrite showHighScores_render_spec;
    cbn -[scan_trace scan_cells render_trace Z.gtb];
    (repeat split; try assumption;
     rewrite Ht, (render_trace_ext _ _ Hm), <- !app_assoc; reflexivity).
Qed.

Lemma showHighScores_returns st : fst (showHighScores st) = Some tt.
Proof. apply showHighScores_spec. Qed.

Lemma showHighScores_cells st a :
  eeprom (exec showHighScores st) a = scan_cells 5 (score st) (eeprom st) a.
Proof. apply showHighScores_spec. Qed.

Lemma showHighScores_run_trace st :
  run_trace showHighScores st = showHighScores_trace (score st) (eeprom st).
Proof. apply run_trace_app. apply showHighScores_spec. Qed.

Lemma recordSession_exec s st :
  exec (recordSession s) st = exec showHighScores (set_score s st).
Proof.
  unfold recordSession, exec, bind, put_score.
  destruct (showHighScores (set_score s st)) as [[r|] st']; reflexivity.
Qed.

Lemma recordSession_returns s st : fst (recordSession s st) = Some tt.
Proof.
  unfold recordSession, bind, put_score.
  pose proof (showHighScores_returns (set_score s st)) as H.
  destruct (showHighScores (set_score s st)) as [[r|] st']; [exact H|discriminate H].
Qed.

Lemma recordSession_cells s st a :
  eeprom (exec (recordSession s) st) a = scan_cells 5 s (eeprom st) a.
Proof.
  rewrite recordSession_exec. exact (showHighScores_cells (set_score s st) a).
Qed.

Lemma recordSession_run_trace s st :
  run_trace (recordSession s) st = showHighScores_trace s (eeprom st).
Proof.
  unfold run_trace. rewrite recordSession_exec.
  exact (showHighScores_run_trace (set_score s st)).
Qed.

Lemma leaderboard_cells st c0 c1 c2 c3 c4 :
  leaderboard st = [c0; c1; c2; c3; c4] ->
  eeprom st 0%nat = c0 /\ eeprom st 1%nat = c1 /\ eeprom st 2%nat = c2 /\
  eeprom st 3%nat = c3 /\ eeprom st 4%nat = c4.
Proof. unfold leaderboard. cbn. intros [= -> -> -> -> ->]. repeat split. Qed.

(** ** The worked examples of the specification *)

(** C1.  On the ledger {10,7,5,4,2} a session that ends with score 6
    does not leave {10,7,6,5,4}: the scan overwrites every beaten cell
    with the score instead of moving the old entries down, so the call
    returns with {10,7,6,6,6} in cells 0..4. *)
Theorem displacement_of_6_duplicates st :
  leaderboard st = [10; 7; 5; 4; 2] ->
  fst (recordSession 6 st) = Some tt /\
  leaderboard (exec (recordSession 6) st) = [10; 7; 6; 6; 6] /\
  leaderboard (exec (recordSession 6) st) <> [10; 7; 6; 5; 4].
Proof.
  intros H. apply leaderboard_cells in H as (H0 & H1 & H2 & H3 & H4).
  split; [apply recordSession_returns|].
  assert (leaderboard (exec (recordSession 6) st) = [10; 7; 6; 6; 6]) as E.
  { unfold leaderboard. cbn [map]. rewrite !recordSession_cells.
    unfold scan_cells, scan_stop. rewrite H0, H1, H2, H3, H4. reflexivity. }
  split; [exact E|]. rewrite E. discriminate.
Qed.

Lemma displacement_of_6_duplicates_witness :
  leaderboard (exec (recordSession 6) (boot highscore 255 0)) = [10; 7; 6; 6; 6].
Proof.
  apply (displacement_of_6_duplicates (boot highscore 255 0)). reflexivity.
Defined.

Lemma notified_app tr1 tr2 :
  notified (tr1 ++ tr2) = notified tr1 || notified tr2.
Proof. apply existsb_app. Qed.

Lemma scan_trace_silent k sc m : notified (scan_trace k sc m) = false.
Proof.
  induction k as [|i IH]; [reflexivity|]. simpl.
  destruct (sc >? m i); [|reflexivity].
  unfold overwrite. destruct (Nat.ltb i 4); simpl; exact IH.
Qed.

(** The notice is shown exactly when the score exceeds EEPROM cell 5. *)
Lemma showHighScores_notified st :
  notified (run_trace showHighScores st) = (score st >? eeprom st 5%nat).
Proof.
  rewrite showHighScores_run_trace. unfold showHighScores_trace.
  rewrite !notified_app, scan_trace_silent.
  destruct (score st >? eeprom st 5%nat); reflexivity.
Qed.

(** The notice, when it is shown, follows the read of cell 5 at once:
    every write and every other display event comes after it. *)
Lemma showHighScores_notice_first st :
  exists rest,
    run_trace showHighScores st
    = EepromRead 5 (eeprom st 5%nat)
      :: (if score st >? eeprom st 5%nat then notify_trace else []) ++ rest /\
    notified rest = false.
Proof.
  exists (scan_trace 5 (score st) (eeprom st)
          ++ render_trace (scan_cells 5 (score st) (eeprom st))).
  split; [apply showHighScores_run_trace|].
  rewrite notified_app, scan_trace_silent. reflexivity.
Qed.

(** C2.  On the ledger {10,7,5,4,2} a session that ends with score 15
    does not leave {15,10,7,5,4} but {15,15,15,15,15}; and the
    new-high-score notice depends on EEPROM cell 5, which is no part of
    the ledger: it is shown exactly when that cell is below 15. *)
Theorem new_top_15_floods_ledger st :
  leaderboard st = [10; 7; 5; 4; 2] ->
  fst (recordSession 15 st) = Some tt /\
  leaderboard (exec (recordSession 15) st) = [15; 15; 15; 15; 15] /\
  leaderboard (exec (recordSession 15) st) <> [15; 10; 7; 5; 4] /\
  notified (run_trace (recordSession 15) st) = (15 >? eeprom st 5%nat).
Proof.
  intros H. apply leaderboard_cells in H as (H0 & H1 & H2 & H3 & H4).
  split; [apply recordSession_returns|].
  assert (leaderboard (exec (recordSession 15) st) = [15; 15; 15; 15; 15]) as E.
  { unfold leaderboard. cbn [map]. rewrite !recordSession_cells.
    unfold scan_cells, scan_stop. rewrite H0, H1, H2, H3, H4. reflexivity. }
  split; [exact E|]. split; [rewrite E; discriminate|].
  unfold run_trace. rewrite recordSession_exec.
  exact (showHighScores_notified (set_score 15 st)).
Qed.

Lemma new_top_15_floods_ledger_witness :
  leaderboard (exec (recordSession 15) (boot highscore 255 0))
  = [15; 15; 15; 15; 15] /\
  notified (run_trace (recordSession 15) (boot highscore 255 0)) = false.
Proof.
  destruct (new_top_15_floods_ledger (boot highscore 255 0) eq_refl)
    as (_ & E & _ & N).
  split; [exact E | exact N].
Defined.

(** C4.  A session whose score does not exceed the value in cell 4 ends
    the scan at its first test: the call returns, writes nothing, and the
    EEPROM (cells 0..4 in particular) is as before. *)
Theorem low_score_leaves_ledger s st :
  s <= eeprom st 4%nat ->
  fst (recordSession s st) = Some tt /\
  eeprom (exec (recordSession s) st) = eeprom st /\
  leaderboard (exec (recordSession s) st) = leaderboard st /\
  existsb is_write (run_trace (recordSession s) st) = false.
Proof.
  intros H. split; [apply recordSession_returns|].
  assert ((s >? eeprom st 4%nat) = false) as E
    by (rewrite Z.gtb_ltb; apply Z.ltb_ge; exact H).
  assert (eeprom (exec (recordSession s) st) = eeprom st) as Hm.
  { destruct st as [sc an hl m kp rg tr]. cbn in E.
    unfold exec. lazy -[Z.gtb uint8 app].
    destruct (s >? m 5%nat); lazy -[Z.gtb uint8 app]; rewrite E; reflexivity. }
  split; [exact Hm|]. split; [unfold leaderboard; now rewrite Hm|].
  rewrite recordSession_run_trace. unfold showHighScores_trace.
  simpl scan_trace. rewrite E.
  destruct (s >? eeprom st 5%nat); reflexivity.
Qed.

Lemma low_score_leaves_ledger_witness :
  leaderboard (exec (recordSession 2) (boot highscore 255 0)) = highscore.
Proof.
  apply (low_score_leaves_ledger 2 (boot highscore 255 0)). cbn. lia.
Defined.

(** C5.  The notice is not tied to the top score in cell 0.  With
    {10,7,5,4,2} in the ledger and 255 (the erased value) in cell 5, a
    score of 15 exceeds the top score and no notice is shown; with 200
    on top and 0 in cell 5, a score of 15 is below the top score and the
    notice is shown. *)
Theorem notice_ignores_top_score :
  (eeprom (boot highscore 255 15) 0%nat < score (boot highscore 255 15) /\
   notified (run_trace showHighScores (boot highscore 255 15)) = false) /\
  (score (boot [200; 7; 5; 4; 2] 0 15) <= eeprom (boot [200; 7; 5; 4; 2] 0 15) 0%nat /\
   notified (run_trace showHighScores (boot [200; 7; 5; 4; 2] 0 15)) = true).
Proof. repeat split; try (cbn; lia); reflexivity. Qed.

(** The test of the loop of [debugMode] holds for every key. *)
Lemma debugMode_test_always key :
  negb (is_key key "#") || negb (is_key key "*") = true.
Proof.
  unfold is_key. destruct (Ascii.eqb_spec key "#") as [->|]; reflexivity.
Qed.

(** So [debugMode] never returns. *)
Lemma debugMode_poll_spins fuel inner key st :
  fst (debugMode_poll fuel inner key st) = None.
Proof.
  revert key st. induction fuel as [|fuel IH]; intros key st; simpl;
    rewrite debugMode_test_always; [reflexivity|].
  unfold bind at 1. destruct (keypad_getKey st) as [[key'|] st1]; [|reflexivity].
  unfold bind at 1.
  match goal with |- context [match ?c st1 with _ => _ end] =>
    destruct (c st1) as [[r|] st2] end; [apply IH|reflexivity].
Qed.

(** When [*] is the next key polled, [debugMode] runs its reset branch
    and then calls [loop]. *)
Lemma debugMode_poll_star fuel inner key st rest :
  keypad st = "*"%char :: rest ->
  debugMode_poll (S fuel) inner key st
  = ((debugMode_reset ;; loop inner) ;; debugMode_poll fuel inner "*"%char)
      (set_keypad rest st).
Proof.
  intros Hk. simpl. rewrite debugMode_test_always.
  unfold bind at 1. unfold keypad_getKey. rewrite Hk. reflexivity.
Qed.

Lemma debugMode_reset_returns st :
  debugMode_reset st = (Some tt, exec debugMode_reset st).
Proof. destruct st as [sc an hl m kp rg tr]. reflexivity. Qed.

(** C7.  When the loop of [debugMode] polls the [*] key, whatever the
    EEPROM held, it writes the default scores and reaches its call
    of [loop] with {10,7,5,4,2} in cells 0..4: up to that call it has
    made exactly the five writes of 10, 7, 5, 4, 2 to cells 0..4, shown
    the reset message and waited, and no other cell has changed.  The
    game that [loop] then starts is played on that default ledger. *)
Theorem reset_restores_defaults fuel inner key st rest :
  keypad st = "*"%char :: rest ->
  exists st1,
    debugMode_poll (S fuel) inner key st
    = (loop inner ;; debugMode_poll fuel inner "*"%char) st1 /\
    leaderboard st1 = [10; 7; 5; 4; 2] /\
    (forall a, (5 <= a)%nat -> eeprom st1 a = eeprom st a) /\
    keypad st1 = rest /\
    trace st1
    = trace st ++ [EepromWrite 0 10; EepromWrite 1 7; EepromWrite 2 5;
                   EepromWrite 3 4; EepromWrite 4 2;
                   LcdClear; LcdPrint "Scores reset to"; LcdSetCursor 0 1;
                   LcdPrint "default values."; Delay 3000].
Proof.
  intros Hk. exists (exec debugMode_reset (set_keypad rest st)). split.
  - rewrite (debugMode_poll_star fuel inner key st rest Hk).
    unfold bind. rewrite (debugMode_reset_returns (set_keypad rest st)).
    reflexivity.
  - destruct st as [sc an hl m kp rg tr].
    split; [reflexivity|]. split; [|split; [reflexivity|]].
    + intros a Ha. do 5 (destruct a as [|a]; [lia|]). reflexivity.
    + cbn. rewrite <- !app_assoc. reflexivity.
Qed.

Lemma reset_restores_defaults_witness :
  exists st1,
    debugMode_poll 1 0 " " (set_keypad ["*"%char] (boot [3; 1; 4; 1; 5] 9 0))
    = (loop 0 ;; debugMode_poll 0 0 "*"%char) st1 /\
    leaderboard st1 = [10; 7; 5; 4; 2] /\
    (forall a, (5 <= a)%nat ->
               eeprom st1 a
               = eeprom (set_keypad ["*"%char] (boot [3; 1; 4; 1; 5] 9 0)) a) /\
    keypad st1 = [] /\
    trace st1
    = trace (set_keypad ["*"%char] (boot [3; 1; 4; 1; 5] 9 0))
      ++ [EepromWrite 0 10; EepromWrite 1 7; EepromWrite 2 5;
          EepromWrite 3 4; EepromWrite 4 2;
          LcdClear; LcdPrint "Scores reset to"; LcdSetCursor 0 1;
          LcdPrint "default values."; Delay 3000].
Proof.
  refine (reset_restores_defaults 0 0 " "%char
            (set_keypad ["*"%char] (boot [3; 1; 4; 1; 5] 9 0)) [] _).
  reflexivity.
Defined.

(** ** The order of the ledger *)

Lemma ranked_mono m a b :
  ranked m -> (a <= b)%nat -> (b <= 4)%nat -> m b <= m a.
Proof.
  intros Hr Hab. induction Hab as [|b Hab IH]; intros Hb; [lia|].
  specialize (Hr b). lia.
Qed.

Lemma ranked_ext m m' :
  (forall a, m' a = m a) -> ranked m -> ranked m'.
Proof. intros H Hr i Hi. rewrite !H. apply Hr. exact Hi. Qed.

(** The scan keeps a ranked ledger ranked, whatever non-negative score
    it is given: the cell that ended the scan holds at least the score,
    and the byte stored below it is at most the score. *)
Lemma scan_cells_ranked sc m :
  ranked m -> 0 <= sc -> ranked (scan_cells 5 sc m).
Proof.
  intros Hr Hsc i Hi. unfold scan_cells.
  pose proof (scan_stop_le 5 sc m) as Hle.
  replace (Nat.ltb (S i) 5) with true by (symmetry; apply Nat.ltb_lt; lia).
  replace (Nat.ltb i 5) with true by (symmetry; apply Nat.ltb_lt; lia).
  rewrite !andb_true_r.
  destruct (Nat.leb (scan_stop 5 sc m) i) eqn:E1.
  - apply Nat.leb_le in E1.
    replace (Nat.leb (scan_stop 5 sc m) (S i)) with true
      by (symmetry; apply Nat.leb_le; lia).
    lia.
  - apply Nat.leb_gt in E1.
    destruct (Nat.leb (scan_stop 5 sc m) (S i)) eqn:E2.
    + apply Nat.leb_le in E2.
      assert (scan_stop 5 sc m = S i) as Hstop by lia.
      apply scan_stop_holds in Hstop.
      pose proof (uint8_le sc Hsc). lia.
    + apply Hr. exact Hi.
Qed.

Lemma recordSession_ranked s st :
  ranked (eeprom st) -> 0 <= s -> ranked (eeprom (exec (recordSession s) st)).
Proof.
  intros Hr Hs. apply (ranked_ext (scan_cells 5 s (eeprom st))).
  - intros a. apply recordSession_cells.
  - apply scan_cells_ranked; assumption.
Qed.

Lemma sessions_length scores st :
  List.length (sessions scores st) = List.length scores.
Proof.
  revert st. induction scores as [|s rest IH]; intros st; simpl; [reflexivity|].
  now rewrite IH.
Qed.

(** C3.  From a ledger with [leaderboard[i] >= leaderboard[i+1]] for
    [i] in 0..3, whatever sequence of sessions with non-negative final
    scores follows, every call returns and the ledger is ranked in the
    same way after each of them. *)
Theorem ledger_stays_ranked scores st :
  ranked (eeprom st) ->
  Forall (fun s => 0 <= s) scores ->
  List.length (sessions scores st) = List.length scores /\
  Forall (fun st' => ranked (eeprom st')) (sessions scores st).
Proof.
  intros Hr Hs. split; [apply sessions_length|].
  revert st Hr. induction Hs as [|s rest Hs0 Hrest IH]; intros st Hr; simpl.
  - constructor.
  - pose proof (recordSession_ranked s st Hr Hs0) as Hr'.
    constructor; [exact Hr'|]. apply IH. exact Hr'.
Qed.

Lemma boot_highscore_ranked c5 sc : ranked (eeprom (boot highscore c5 sc)).
Proof.
  intros i Hi. do 4 (destruct i as [|i]; [cbn; lia|]). lia.
Qed.

Lemma ledger_stays_ranked_witness :
  Forall (fun st' => ranked (eeprom st'))
    (sessions [6; 15; 300; 0] (boot highscore 255 0)).
Proof.
  apply (ledger_stays_ranked [6; 15; 300; 0] (boot highscore 255 0)).
  - intros i Hi. do 4 (destruct i as [|i]; [cbn; lia|]). lia.
  - repeat constructor; lia.
Defined.

(** ** Where the scan stops and what it writes *)

Lemma writes_only_app p tr1 tr2 :
  writes_only p tr1 -> writes_only p tr2 -> writes_only p (tr1 ++ tr2).
Proof. intros H1 H2. apply Forall_app. split; assumption. Qed.

Lemma writes_only_weaken (p q : nat -> bool) tr :
  (forall a, p a = true -> q a = true) -> writes_only p tr -> writes_only q tr.
Proof.
  intros Hpq H. eapply Forall_impl; [|exact H].
  intros [a v|a v| | | | | | |]; simpl; auto.
Qed.

Lemma writes_only_flat_map {A} p (f : A -> list event) l :
  (forall x, In x l -> writes_only p (f x)) -> writes_only p (flat_map f l).
Proof.
  induction l as [|x l IH]; intros H; simpl; [constructor|].
  apply writes_only_app; [apply H; now left|]. apply IH. intros y Hy.
  apply H. now right.
Qed.

Lemma overwrite_writes_only p sc m i :
  p i = true -> writes_only p (overwrite sc m i).
Proof.
  intros Hp. unfold overwrite.
  destruct (Nat.ltb i 4); repeat constructor; exact Hp.
Qed.

(** The scan writes to the beaten cells only. *)
Lemma scan_trace_writes k sc m :
  writes_only (fun a => Nat.leb (scan_stop k sc m) a && Nat.ltb a k)
    (scan_trace k sc m).
Proof.
  rewrite scan_trace_blocks. apply writes_only_app.
  - apply writes_only_flat_map. intros a Ha. apply overwrite_writes_only.
    apply in_rev, in_seq in Ha. apply andb_true_intro. split.
    + apply Nat.leb_le. lia.
    + pose proof (scan_stop_le k sc m). apply Nat.ltb_lt. lia.
  - destruct (scan_stop k sc m); repeat constructor.
Qed.

Lemma render_trace_writes p m : writes_only p (render_trace m).
Proof. unfold render_trace. cbn. repeat constructor. Qed.

(** [showHighScores] writes to the beaten cells only. *)
Lemma showHighScores_trace_writes sc m :
  writes_only (fun a => Nat.leb (scan_stop 5 sc m) a && Nat.ltb a 5)
    (showHighScores_trace sc m).
Proof.
  unfold showHighScores_trace.
  apply writes_only_app; [repeat constructor|].
  apply writes_only_app; [destruct (sc >? m 5%nat); repeat constructor|].
  apply writes_only_app; [apply scan_trace_writes|apply render_trace_writes].
Qed.

Lemma showHighScores_scan_run_trace k st :
  run_trace (showHighScores_scan k) st = scan_trace k (score st) (eeprom st).
Proof. apply run_trace_app. apply showHighScores_scan_spec. Qed.

(** C6.  When cell [i] is the first cell met, going down from cell 4,
    whose value is greater than or equal to the score, the scan is made
    of one overwriting iteration for each of the cells 4 .. i+1 and ends
    with the read of cell [i]; the whole call writes above cell [i] only
    and leaves cell [i] and every cell of smaller index as they were. *)
Theorem scan_stops_at_first_holder st i :
  (i < 5)%nat ->
  score st <= eeprom st i ->
  (forall t, (i < t < 5)%nat -> eeprom st t < score st) ->
  run_trace (showHighScores_scan 5) st
  = flat_map (overwrite (score st) (eeprom st)) (rev (seq (S i) (4 - i)))
    ++ [EepromRead i (eeprom st i)] /\
  writes_only (fun a => Nat.ltb i a) (run_trace showHighScores st) /\
  forall j, (j <= i)%nat -> eeprom (exec showHighScores st) j = eeprom st j.
Proof.
  intros Hi Hhold Hbeat.
  assert (scan_stop 5 (score st) (eeprom st) = S i) as Hstop.
  { apply scan_stop_unique; [lia| |].
    - intros t Ht. apply Hbeat. lia.
    - intros i' [= <-]. exact Hhold. }
  repeat split.
  - rewrite showHighScores_scan_run_trace, scan_trace_blocks, Hstop.
    replace (5 - S i)%nat with (4 - i)%nat by lia. reflexivity.
  - rewrite showHighScores_run_trace.
    eapply writes_only_weaken; [|apply showHighScores_trace_writes].
    intros a Ha. rewrite Hstop in Ha. apply andb_prop in Ha as [Ha _].
    apply Nat.leb_le in Ha. apply Nat.ltb_lt. lia.
  - intros j Hj. rewrite showHighScores_cells. unfold scan_cells. rewrite Hstop.
    replace (Nat.leb (S i) j) with false by (symmetry; apply Nat.leb_gt; lia).
    reflexivity.
Qed.

Lemma scan_stops_at_first_holder_witness :
  run_trace (showHighScores_scan 5) (boot highscore 255 6)
  = [EepromRead 4 2; EepromWrite 4 6;
     EepromRead 3 4; EepromWrite 3 4; EepromWrite 3 6;
     EepromRead 2 5; EepromWrite 2 3; EepromWrite 2 6;
     EepromRead 1 7].
Proof.
  refine (proj1 (scan_stops_at_first_holder (boot highscore 255 6) 1 _ _ _)).
  - lia.
  - cbn. lia.
  - intros t Ht. destruct t as [|[|[|[|[|t]]]]]; cbn; lia.
Defined.

(** ** The display of the ledger *)

Lemma same_store_refl st : same_store st st.
Proof. repeat split. Qed.

Lemma showHighScores_render_same_store st :
  same_store st (exec showHighScores_render st).
Proof.
  unfold exec. rewrite showHighScores_render_spec.
  destruct st; repeat split.
Qed.

Lemma render_iter_same_store n st :
  same_store st (Nat.iter n (exec showHighScores_render) st).
Proof.
  induction n as [|n IH]; simpl; [apply same_store_refl|].
  destruct IH as (Hs & Ha & Hh & Hk & Hr & Hm).
  destruct (showHighScores_render_same_store
              (Nat.iter n (exec showHighScores_render) st))
    as (Hs' & Ha' & Hh' & Hk' & Hr' & Hm').
  repeat split; congruence.
Qed.

(** C8.  The display step writes to no cell, and however many times it
    has already run since the last session, it returns, leaves globals,
    inputs and EEPROM as they were, and reads and shows the same events:
    the five cells 0..4 in order. *)
Theorem render_is_pure n st :
  let st_n := Nat.iter n (exec showHighScores_render) st in
  same_store st st_n /\
  fst (showHighScores_render st_n) = Some tt /\
  run_trace showHighScores_render st_n = render_trace (eeprom st) /\
  existsb is_write (render_trace (eeprom st)) = false /\
  shown (render_trace (eeprom st)) = leaderboard st.
Proof.
  intros st_n. pose proof (render_iter_same_store n st) as Hsame.
  fold st_n in Hsame. split; [exact Hsame|].
  destruct Hsame as (_ & _ & _ & _ & _ & Hm).
  rewrite showHighScores_render_spec. split; [reflexivity|].
  split; [|split; reflexivity].
  rewrite <- Hm. apply run_trace_app.
  unfold exec. rewrite showHighScores_render_spec.
  destruct st_n; reflexivity.
Qed.

(** ** The ledger after a session *)

(** On a ranked ledger the scan stops after as many cells as hold at
    least the score. *)
Lemma scan_stop_ranked sc m :
  ranked m ->
  scan_stop 5 sc m
  = List.length (filter (fun v => sc <=? v) (map m [0; 1; 2; 3; 4]%nat)).
Proof.
  intros Hr.
  pose proof (Hr 0%nat ltac:(lia)). pose proof (Hr 1%nat ltac:(lia)).
  pose proof (Hr 2%nat ltac:(lia)). pose proof (Hr 3%nat ltac:(lia)).
  unfold scan_stop. cbn [map filter]. rewrite !Z.gtb_ltb.
  destruct (Z.leb_spec sc (m 0%nat)); destruct (Z.leb_spec sc (m 1%nat));
    destruct (Z.leb_spec sc (m 2%nat)); destruct (Z.leb_spec sc (m 3%nat));
    destruct (Z.leb_spec sc (m 4%nat));
    destruct (Z.ltb_spec (m 0%nat) sc); destruct (Z.ltb_spec (m 1%nat) sc);
    destruct (Z.ltb_spec (m 2%nat) sc); destruct (Z.ltb_spec (m 3%nat) sc);
    destruct (Z.ltb_spec (m 4%nat) sc);
    try lia; reflexivity.
Qed.

(** On a ranked ledger the beaten cells are those below the score. *)
Lemma scan_cells_ranked_pointwise sc m a :
  ranked m -> (a < 5)%nat ->
  scan_cells 5 sc m a = if m a <? sc then uint8 sc else m a.
Proof.
  intros Hr Ha. unfold scan_cells.
  replace (Nat.ltb a 5) with true by (symmetry; apply Nat.ltb_lt; lia).
  rewrite andb_true_r.
  destruct (Nat.leb (scan_stop 5 sc m) a) eqn:E.
  - apply Nat.leb_le in E.
    assert (m a < sc) as Hlt by (apply (scan_stop_beaten 5); lia).
    apply Z.ltb_lt in Hlt. now rewrite Hlt.
  - apply Nat.leb_gt in E.
    pose proof (scan_stop_le 5 sc m) as Hle.
    destruct (scan_stop 5 sc m) as [|j] eqn:Hstop; [lia|].
    apply scan_stop_holds in Hstop.
    assert (m j <= m a) as Hmono by (apply ranked_mono; [exact Hr|lia|lia]).
    replace (m a <? sc) with false by (symmetry; apply Z.ltb_ge; lia).
    reflexivity.
Qed.

(** C9, as stated, fails on a score that does not fit a cell: from
    {10,7,5,4,2} a score of 300 beats every cell, and the cells then
    hold 44 (300 reduced to 8 bits), not 300. *)
Lemma beaten_cells_hold_truncated_score :
  ranked (eeprom (boot highscore 255 300)) /\
  eeprom (boot highscore 255 300) 4%nat < score (boot highscore 255 300) /\
  leaderboard (exec showHighScores (boot highscore 255 300))
  = [44; 44; 44; 44; 44] /\
  eeprom (exec showHighScores (boot highscore 255 300)) 4%nat
  <> score (boot highscore 255 300).
Proof.
  split; [apply boot_highscore_ranked|].
  split; [cbn; lia|]. split; [reflexivity|]. cbn. discriminate.
Qed.

(** C9, amended.  On a ranked ledger every iteration of the scan whose
    test succeeds writes [i+1] (for [i < 4]) and then at once the score
    into the same cell [i], so after the call the cells that held at
    least the score are unchanged and every cell that held less holds
    the score reduced to 8 bits: the ledger is its prefix of values >= s
    followed by copies of [s mod 256], which is [s] itself when
    [0 <= s <= 255]. *)
Theorem scan_overwrites_beaten_suffix st :
  ranked (eeprom st) ->
  let s := score st in
  let m := eeprom st in
  let cut := List.length (filter (fun v => s <=? v) (leaderboard st)) in
  let st' := exec showHighScores st in
  run_trace (showHighScores_scan 5) st
  = flat_map (overwrite s m) (rev (seq cut (5 - cut)))
    ++ match cut with O => [] | S j => [EepromRead j (m j)] end /\
  (forall a, (a < 5)%nat -> eeprom st' a = if m a <? s then uint8 s else m a) /\
  leaderboard st' = firstn cut (leaderboard st) ++ repeat (uint8 s) (5 - cut) /\
  (0 <= s < 256 ->
   leaderboard st' = firstn cut (leaderboard st) ++ repeat s (5 - cut)).
Proof.
  intros Hr s m cut st'.
  assert (scan_stop 5 s m = cut) as Hstop by (apply scan_stop_ranked; exact Hr).
  assert (leaderboard st'
          = firstn cut (leaderboard st) ++ repeat (uint8 s) (5 - cut)) as Hboard.
  { unfold leaderboard. cbn [map]. unfold st'. rewrite !showHighScores_cells.
    unfold scan_cells. fold s m. rewrite Hstop.
    destruct cut as [|[|[|[|[|[|c]]]]]]; reflexivity. }
  split; [|split; [|split]].
  - rewrite showHighScores_scan_run_trace, scan_trace_blocks.
    fold s m. rewrite Hstop. reflexivity.
  - intros a Ha. unfold st'. rewrite showHighScores_cells.
    apply scan_cells_ranked_pointwise; assumption.
  - exact Hboard.
  - intros Hs. rewrite Hboard, uint8_small by exact Hs. reflexivity.
Qed.

Lemma scan_overwrites_beaten_suffix_witness :
  leaderboard (exec showHighScores (boot highscore 255 6)) = [10; 7; 6; 6; 6].
Proof.
  refine (proj1 (proj2 (proj2
    (scan_overwrites_beaten_suffix (boot highscore 255 6) _)))).
  intros i Hi. do 4 (destruct i as [|i]; [cbn; lia|]). lia.
Defined.

(** ** Relations kept by the whole sketch *)

(** Whatever relation between states is reflexive, transitive and kept
    by the events that are not EEPROM writes, by the assignments to the
    globals and by the consumption of input, is kept by every function
    of the sketch that does not write to the EEPROM; [loop] keeps it as
    soon as [showHighScores] does, and [debugMode] as soon as its reset
    branch does too. *)
Section Frame.

Variable R : sketch -> sketch -> Prop.

Hypothesis R_refl : forall st, R st st.
Hypothesis R_trans : forall st1 st2 st3, R st1 st2 -> R st2 st3 -> R st1 st3.
Hypothesis R_event :
  forall e st, is_write e = false -> R st (set_trace (trace st ++ [e]) st).
Hypothesis R_score : forall v st, R st (set_score v st).
Hypothesis R_answer : forall v st, R st (set_answer v st).
Hypothesis R_headerLen : forall v st, R st (set_headerLen v st).
Hypothesis R_keypad : forall v st, R st (set_keypad v st).
Hypothesis R_rng : forall v st, R st (set_rng v st).

Lemma keeps_ret {A} (a : A) : keeps R (ret a).
Proof. intros st. apply R_refl. Qed.

Lemma keeps_spin {A} : keeps R (@spin A).
Proof. intros st. apply R_refl. Qed.

Lemma keeps_bind {A B} (m : M A) (k : A -> M B) :
  keeps R m -> (forall a, keeps R (k a)) -> keeps R (bind m k).
Proof.
  intros Hm Hk st. specialize (Hm st). unfold exec, bind in *.
  destruct (m st) as [[a|] st1]; cbn [snd] in *.
  - eapply R_trans; [exact Hm|]. apply Hk.
  - exact Hm.
Qed.

Lemma keeps_when b (m : M unit) : keeps R m -> keeps R (when b m).
Proof. intros H. destruct b; [exact H|apply keeps_ret]. Qed.

Lemma keeps_emit e : is_write e = false -> keeps R (emit e).
Proof. intros He st. apply R_event. exact He. Qed.

Lemma keeps_EEPROM_read a : keeps R (EEPROM_read a).
Proof. intros st. apply (R_event (EepromRead a (eeprom st a))). reflexivity. Qed.

Lemma keeps_keypad_getKey : keeps R keypad_getKey.
Proof.
  intros st. unfold exec, keypad_getKey.
  destruct (keypad st); cbn; [apply R_refl|apply R_keypad].
Qed.

Lemma keeps_random lo hi : keeps R (random lo hi).
Proof.
  intros st. unfold exec, random.
  destruct (hi <=? lo); [apply R_refl|].
  destruct (rng st); cbn; [apply R_refl|apply R_rng].
Qed.

Lemma keeps_get_score : keeps R get_score.
Proof. intros st. apply R_refl. Qed.

Lemma keeps_get_answer : keeps R get_answer.
Proof. intros st. apply R_refl. Qed.

Lemma keeps_get_headerLen : keeps R get_headerLen.
Proof. intros st. apply R_refl. Qed.

Lemma keeps_put_score v : keeps R (put_score v).
Proof. intros st. apply R_score. Qed.

Lemma keeps_put_answer v : keeps R (put_answer v).
Proof. intros st. apply R_answer. Qed.

Lemma keeps_put_headerLen v : keeps R (put_headerLen v).
Proof. intros st. apply R_headerLen. Qed.

Lemma keeps_for_up from n body :
  (forall i, (from <= i < from + n)%nat -> keeps R (body i)) ->
  keeps R (for_up from n body).
Proof.
  revert from. induction n as [|n IH]; intros from H; simpl.
  - apply keeps_ret.
  - apply keeps_bind; [apply H; lia|]. intros _. apply IH.
    intros i Hi. apply H. lia.
Qed.

(** One step of such a proof: split a sequence or a conditional, or
    close a call of a library function. *)
Ltac keeps_step :=
  match goal with
  | |- keeps _ (bind _ _) => apply keeps_bind; [|intros ?]
  | |- keeps _ (if ?b then _ else _) => destruct b
  | |- keeps _ (when _ _) => apply keeps_when
  | |- keeps _ (ret _) => apply keeps_ret
  | |- keeps _ spin => apply keeps_spin
  | |- keeps _ (EEPROM_read _) => apply keeps_EEPROM_read
  | |- keeps _ keypad_getKey => apply keeps_keypad_getKey
  | |- keeps _ (random _ _) => apply keeps_random
  | |- keeps _ get_score => apply keeps_get_score
  | |- keeps _ get_answer => apply keeps_get_answer
  | |- keeps _ get_headerLen => apply keeps_get_headerLen
  | |- keeps _ (put_score _) => apply keeps_put_score
  | |- keeps _ (put_answer _) => apply keeps_put_answer
  | |- keeps _ (put_headerLen _) => apply keeps_put_headerLen
  | |- keeps _ (lcd_begin _ _) => apply keeps_emit; reflexivity
  | |- keeps _ lcd_clear => apply keeps_emit; reflexivity
  | |- keeps _ (lcd_setCursor _ _) => apply keeps_emit; reflexivity
  | |- keeps _ lcd_cursor => apply keeps_emit; reflexivity
  | |- keeps _ lcd_noCursor => apply keeps_emit; reflexivity
  | |- keeps _ (lcd_print _) => apply keeps_emit; reflexivity
  | |- keeps _ (lcd_printNum _) => apply keeps_emit; reflexivity
  | |- keeps _ (delay _) => apply keeps_emit; reflexivity
  | |- keeps _ _ => assumption
  end.

Ltac keeps_all := repeat keeps_step.

Lemma keeps_fullPagePrint l1 l2 : keeps R (fullPagePrint l1 l2).
Proof. unfold fullPagePrint. keeps_all. Qed.

Lemma keeps_setup : keeps R setup.
Proof. unfold setup. keeps_all. Qed.

Lemma keeps_showHighScores_render : keeps R showHighScores_render.
Proof.
  unfold showHighScores_render. keeps_all.
  apply keeps_for_up. intros i Hi. keeps_all.
Qed.

Lemma keeps_printQuestion_redraw fuel q a :
  keeps R (printQuestion_redraw fuel q a).
Proof.
  revert a. induction fuel as [|fuel IH]; intros a; simpl; keeps_all.
  apply IH.
Qed.

Lemma keeps_printQuestion fuel : keeps R (printQuestion fuel).
Proof.
  unfold printQuestion. keeps_all; apply keeps_printQuestion_redraw.
Qed.

Lemma keeps_getInput_poll fuel input key :
  keeps R (getInput_poll fuel input key).
Proof.
  revert input key. induction fuel as [|fuel IH]; intros input key; simpl;
    keeps_all; apply IH.
Qed.

Lemma keeps_gameLoop fuel : keeps R (gameLoop fuel).
Proof.
  unfold gameLoop, getInput. keeps_all;
    first [ apply keeps_printQuestion
          | apply keeps_getInput_poll
          | apply keeps_fullPagePrint ].
Qed.

Lemma keeps_loop_wait fuel key : keeps R (loop_wait fuel key).
Proof.
  revert key. induction fuel as [|fuel IH]; intros key; simpl; keeps_all.
  apply IH.
Qed.

Lemma keeps_loop_play inner fuel : keeps R (loop_play inner fuel).
Proof.
  induction fuel as [|fuel IH]; simpl; keeps_all. apply keeps_gameLoop.
Qed.

Hypothesis R_showHighScores : keeps R showHighScores.

Lemma keeps_loop fuel : keeps R (loop fuel).
Proof.
  unfold loop. keeps_all;
    first [ apply keeps_fullPagePrint | apply keeps_loop_wait
          | apply keeps_loop_play ].
Qed.

Hypothesis R_debugMode_reset : keeps R debugMode_reset.

Lemma keeps_debugMode_poll fuel inner key :
  keeps R (debugMode_poll fuel inner key).
Proof.
  revert key. induction fuel as [|fuel IH]; intros key; simpl; keeps_all;
    first [ apply keeps_loop | apply keeps_fullPagePrint | apply IH ].
Qed.

Lemma keeps_debugMode fuel : keeps R (debugMode fuel).
Proof.
  unfold debugMode. keeps_all;
    first [ apply keeps_fullPagePrint | apply keeps_debugMode_poll ].
Qed.

End Frame.

(** *** Writes stay inside the ledger *)

Lemma ledger_frame_refl st : ledger_frame st st.
Proof.
  split; [|reflexivity]. exists []. split; [now rewrite app_nil_r|constructor].
Qed.

Lemma ledger_frame_trans st1 st2 st3 :
  ledger_frame st1 st2 -> ledger_frame st2 st3 -> ledger_frame st1 st3.
Proof.
  intros [(tr1 & E1 & W1) H1] [(tr2 & E2 & W2) H2]. split.
  - exists (tr1 ++ tr2). split.
    + rewrite E2, E1, app_assoc. reflexivity.
    + apply writes_only_app; assumption.
  - intros a Ha. rewrite H2, H1 by exact Ha. reflexivity.
Qed.

Lemma ledger_frame_event e st :
  is_write e = false -> ledger_frame st (set_trace (trace st ++ [e]) st).
Proof.
  intros He. split; [|reflexivity]. exists [e]. split; [reflexivity|].
  constructor; [|constructor]. destruct e; try exact I. discriminate He.
Qed.

(** A step that leaves trace and EEPROM alone is in the frame. *)
Lemma ledger_frame_quiet st st' :
  trace st' = trace st -> eeprom st' = eeprom st -> ledger_frame st st'.
Proof.
  intros Ht Hm. split.
  - exists []. split; [now rewrite app_nil_r|constructor].
  - intros a _. now rewrite Hm.
Qed.

Lemma ledger_frame_EEPROM_write a v :
  (a < 5)%nat -> keeps ledger_frame (EEPROM_write a v).
Proof.
  intros Ha st. split.
  - eexists. split; [reflexivity|]. repeat constructor.
    apply Nat.ltb_lt. exact Ha.
  - intros b Hb. cbn. apply poke_other. lia.
Qed.

Lemma ledger_frame_showHighScores : keeps ledger_frame showHighScores.
Proof.
  intros st. split.
  - exists (showHighScores_trace (score st) (eeprom st)).
    split; [apply showHighScores_spec|].
    eapply writes_only_weaken; [|apply showHighScores_trace_writes].
    intros a Ha. apply andb_prop in Ha. apply Ha.
  - intros a Ha. rewrite showHighScores_cells. unfold scan_cells.
    replace (Nat.ltb a 5) with false by (symmetry; apply Nat.ltb_ge; exact Ha).
    now rewrite andb_false_r.
Qed.

(** The premises of section [Frame], for [ledger_frame]. *)
Ltac ledger_frame_premise :=
  first [ exact ledger_frame_refl | exact ledger_frame_trans
        | exact ledger_frame_event | exact ledger_frame_showHighScores
        | intros ? ?; apply ledger_frame_quiet; reflexivity ].

Lemma ledger_frame_debugMode_reset : keeps ledger_frame debugMode_reset.
Proof.
  unfold debugMode_reset.
  apply keeps_bind; try ledger_frame_premise.
  - apply keeps_for_up; try ledger_frame_premise.
    intros i Hi. apply ledger_frame_EEPROM_write. lia.
  - intros _. apply keeps_bind; try ledger_frame_premise.
    + apply keeps_fullPagePrint; ledger_frame_premise.
    + intros _. apply keeps_emit; [ledger_frame_premise|reflexivity].
Qed.

Lemma ledger_frame_loop fuel : keeps ledger_frame (loop fuel).
Proof. apply keeps_loop; ledger_frame_premise. Qed.

Lemma ledger_frame_debugMode fuel : keeps ledger_frame (debugMode fuel).
Proof.
  apply keeps_debugMode;
    first [ledger_frame_premise | exact ledger_frame_debugMode_reset].
Qed.

Lemma ledger_frame_setup : keeps ledger_frame setup.
Proof. apply keeps_setup; ledger_frame_premise. Qed.

Lemma ledger_frame_showHighScores_render :
  keeps ledger_frame showHighScores_render.
Proof. apply keeps_showHighScores_render; ledger_frame_premise. Qed.

Lemma writes_only_misses p a tr :
  p a = false -> writes_only p tr -> existsb (writes_to a) tr = false.
Proof.
  intros Hp H. induction H as [|e tr He _ IH]; [reflexivity|].
  simpl. rewrite IH, orb_false_r.
  destruct e as [b v|b v| | | | | | |]; try reflexivity. simpl.
  destruct (Nat.eqb b a) eqn:E; [|reflexivity].
  apply Nat.eqb_eq in E. subst b. congruence.
Qed.

Lemma ledger_frame_cell5 {A} (m : M A) st :
  keeps ledger_frame m -> cell5_untouched m st.
Proof.
  intros H. destruct (H st) as [(tr & E & W) Hm]. split.
  - rewrite (run_trace_app m st tr E).
    apply (writes_only_misses (fun a => Nat.ltb a 5)); [reflexivity|exact W].
  - apply Hm. lia.
Qed.

(** C10.  No run of the sketch writes to EEPROM cell 5: not [setup], not
    [loop] (a whole game, with [showHighScores] at its end), not
    [debugMode] (with its reset branch and the games it starts), for any
    keys pressed, any random draws and any number of polling steps, and
    so none of [showHighScores], its display loop and the reset branch on
    their own.  The cell compared with the score holds after the run
    what it held before. *)
Theorem cell5_is_never_written fuel st :
  cell5_untouched setup st /\
  cell5_untouched (loop fuel) st /\
  cell5_untouched (debugMode fuel) st /\
  cell5_untouched showHighScores st /\
  cell5_untouched showHighScores_render st /\
  cell5_untouched debugMode_reset st.
Proof.
  repeat split; apply ledger_frame_cell5;
    auto using ledger_frame_setup, ledger_frame_loop, ledger_frame_debugMode,
      ledger_frame_showHighScores, ledger_frame_showHighScores_render,
      ledger_frame_debugMode_reset.
Qed.

(** *** A ranked ledger of bytes stays one *)

Lemma ledger_sound_refl st : ledger_sound st st.
Proof. intros H. exact H. Qed.

Lemma ledger_sound_trans st1 st2 st3 :
  ledger_sound st1 st2 -> ledger_sound st2 st3 -> ledger_sound st1 st3.
Proof. intros H12 H23 H. apply H23, H12, H. Qed.

Lemma ledger_sound_same st st' :
  eeprom st' = eeprom st -> ledger_sound st st'.
Proof. intros Hm H. rewrite Hm. exact H. Qed.

(** With a negative score (a count that wrapped around) the scan of a
    ledger of bytes ends at its first test. *)
Lemma scan_cells_negative sc m a :
  bytes m -> sc < 0 -> scan_cells 5 sc m a = m a.
Proof.
  intros Hb Hsc. apply scan_cells_break.
  rewrite Z.gtb_ltb. apply Z.ltb_ge. specialize (Hb 4%nat). lia.
Qed.

Lemma ledger_sound_showHighScores : keeps ledger_sound showHighScores.
Proof.
  intros st [Hb Hr]. split.
  - intros a. rewrite showHighScores_cells. unfold scan_cells.
    destruct (_ && _); [apply uint8_range|apply Hb].
  - destruct (Z.lt_ge_cases (score st) 0) as [Hneg|Hpos].
    + apply (ranked_ext (eeprom st)); [|exact Hr].
      intros a. rewrite showHighScores_cells.
      apply scan_cells_negative; assumption.
    + apply (ranked_ext (scan_cells 5 (score st) (eeprom st))).
      * apply showHighScores_cells.
      * apply scan_cells_ranked; assumption.
Qed.

Lemma debugMode_reset_cells st a :
  eeprom (exec debugMode_reset st) a
  = if Nat.ltb a 5 then nth a highscore 0 else eeprom st a.
Proof.
  destruct st as [sc an hl m kp rg tr]. cbn -[Nat.ltb]. unfold poke.
  do 5 (destruct a as [|a]; [reflexivity|]). reflexivity.
Qed.

Lemma ledger_sound_debugMode_reset : keeps ledger_sound debugMode_reset.
Proof.
  intros st [Hb Hr]. split.
  - intros a. rewrite debugMode_reset_cells.
    do 5 (destruct a as [|a]; [cbn; lia|]). apply Hb.
  - intros i Hi. rewrite !debugMode_reset_cells.
    do 4 (destruct i as [|i]; [cbn; lia|]). lia.
Qed.

(** The premises of section [Frame], for [ledger_sound]. *)
Ltac ledger_sound_premise :=
  first [ exact ledger_sound_refl | exact ledger_sound_trans
        | exact ledger_sound_showHighScores
        | exact ledger_sound_debugMode_reset
        | intros ? ?; apply ledger_sound_same; reflexivity
        | intros ? ? _; apply ledger_sound_same; reflexivity ].

(** X18.  Whatever is played, a game leaves a ranked ledger of bytes
    ranked and made of bytes, also when it is cut short. *)
Theorem loop_keeps_ledger_ranked fuel st :
  bytes (eeprom st) -> ranked (eeprom st) ->
  bytes (eeprom (exec (loop fuel) st)) /\
  ranked (eeprom (exec (loop fuel) st)).
Proof.
  intros Hb Hr. apply (keeps_loop ledger_sound); try ledger_sound_premise.
  split; assumption.
Qed.

(** X19.  So does the maintenance mode, reset or not, with the games it
    starts. *)
Theorem debugMode_keeps_ledger_ranked fuel st :
  bytes (eeprom st) -> ranked (eeprom st) ->
  bytes (eeprom (exec (debugMode fuel) st)) /\
  ranked (eeprom (exec (debugMode fuel) st)).
Proof.
  intros Hb Hr. apply (keeps_debugMode ledger_sound); try ledger_sound_premise.
  split; assumption.
Qed.

(** * More of the sketch *)

(** ** [getInput] *)

Lemma getInput_poll_star fuel input st :
  getInput_poll fuel input "*" st = (Some input, st).
Proof. destruct fuel; reflexivity. Qed.

(** The loop of [getInput] on keys of which the first [*] comes within
    the fuel: it takes the keys up to that [*], returns the text they
    leave and has echoed them on the display. *)
Lemma getInput_poll_spec keys :
  forall fuel input key rest st,
    is_key key "*" = false ->
    Forall (fun k => is_key k "*" = false) keys ->
    keypad st = keys ++ "*"%char :: rest ->
    (List.length keys < fuel)%nat ->
    getInput_poll fuel input key st
    = (Some (typed keys input),
       set_trace (trace st ++ echo (headerLen st) keys input)
         (set_keypad rest st)).
Proof.
  induction keys as [|k ks IH]; intros fuel input key rest st Hkey Hks Hpad Hfuel;
    destruct fuel as [|fuel]; try (simpl in Hfuel; lia);
    destruct st as [sc an hl m kp rg tr]; cbn in Hpad; subst kp;
    cbn [getInput_poll]; rewrite Hkey;
    unfold bind at 1; cbn [keypad_getKey keypad set_keypad score answer
      headerLen eeprom rng trace].
  - cbn. rewrite getInput_poll_star, app_nil_r. reflexivity.
  - inversion Hks as [|? ? Hk Hks']; subst.
    assert (List.length ks < fuel)%nat as Hfuel' by (simpl in Hfuel; lia).
    cbn [typed fold_left echo]. unfold getInput_edit, getInput_echo.
    destruct (is_key k "#") eqn:Ehash.
    + destruct (0 <? strlen input) eqn:Elen.
      * cbn -[getInput_poll drop_last strlen uint8 Z.add].
        erewrite IH; [|exact Hk|exact Hks'|reflexivity|exact Hfuel'].
        cbn -[drop_last strlen uint8 Z.add echo typed].
        rewrite <- !app_assoc. reflexivity.
      * erewrite IH; [|exact Hk|exact Hks'|reflexivity|exact Hfuel'].
        reflexivity.
    + rewrite Hk. destruct (is_key k NO_KEY) eqn:Enokey; cbn [negb andb].
      * erewrite IH; [|exact Hk|exact Hks'|reflexivity|exact Hfuel'].
        reflexivity.
      * cbn -[getInput_poll].
        erewrite IH; [|exact Hk|exact Hks'|reflexivity|exact Hfuel'].
        cbn -[echo typed]. rewrite <- !app_assoc. reflexivity.
Qed.

Lemma strlen_append s t : strlen (s ++ t)%string = strlen s + strlen t.
Proof.
  unfold strlen. induction s as [|c s IH]; [reflexivity|].
  cbn [append String.length]. lia.
Qed.

Lemma substring_prefix s t :
  substring 0 (String.length s) (s ++ t)%string = s.
Proof.
  induction s as [|c s IH]; cbn.
  - destruct t; reflexivity.
  - now rewrite IH.
Qed.

Lemma length_append_one s c :
  String.length (s ++ String c EmptyString)%string = S (String.length s).
Proof. induction s as [|d s IH]; cbn; [reflexivity|now rewrite IH]. Qed.

(** [input.remove(input.length() - 1)] takes back the last [concat]. *)
Lemma drop_last_append s c :
  drop_last (s ++ String c EmptyString)%string = s.
Proof.
  unfold drop_last. rewrite length_append_one.
  replace (S (String.length s) - 1)%nat with (String.length s) by lia.
  apply substring_prefix.
Qed.

Lemma append_one_assoc s c t :
  ((s ++ String c EmptyString) ++ t = s ++ String c t)%string.
Proof. induction s as [|d s IH]; cbn; [reflexivity|now rewrite IH]. Qed.

Lemma append_empty_r s : (s ++ EmptyString)%string = s.
Proof. induction s as [|d s IH]; cbn; [reflexivity|now rewrite IH]. Qed.

Lemma ordinary_keys k :
  ordinary k = true ->
  is_key k "#" = false /\ is_key k NO_KEY = false /\ is_key k "*" = false.
Proof.
  unfold ordinary. intros H.
  destruct (is_key k "#"), (is_key k NO_KEY), (is_key k "*");
    try discriminate H; repeat split.
Qed.

Lemma ordinary_no_star ds :
  Forall (fun k => ordinary k = true) ds ->
  Forall (fun k => is_key k "*" = false) ds.
Proof.
  intros H. eapply Forall_impl; [|exact H]. intros k Hk.
  apply ordinary_keys in Hk. apply Hk.
Qed.

Lemma getInput_edit_ordinary input k :
  ordinary k = true ->
  getInput_edit input k = (input ++ String k EmptyString)%string.
Proof.
  intros H. apply ordinary_keys in H as (H1 & H2 & H3).
  unfold getInput_edit. now rewrite H1, H2, H3.
Qed.

Lemma getInput_echo_ordinary h input k :
  ordinary k = true -> getInput_echo h input k = [LcdPrint (String k EmptyString)].
Proof.
  intros H. apply ordinary_keys in H as (H1 & H2 & H3).
  unfold getInput_echo. now rewrite H1, H2, H3.
Qed.

Lemma typed_ordinary ds :
  forall input,
    Forall (fun k => ordinary k = true) ds ->
    typed ds input = (input ++ string_of_list_ascii ds)%string.
Proof.
  induction ds as [|k ds IH]; intros input H; cbn.
  - now rewrite append_empty_r.
  - inversion H as [|? ? Hk Hds]; subst.
    rewrite getInput_edit_ordinary by exact Hk.
    unfold typed in IH. rewrite IH by exact Hds. apply append_one_assoc.
Qed.

Lemma echo_ordinary h ds :
  forall input,
    Forall (fun k => ordinary k = true) ds ->
    echo h ds input = map (fun k => LcdPrint (String k EmptyString)) ds.
Proof.
  induction ds as [|k ds IH]; intros input H; cbn; [reflexivity|].
  inversion H as [|? ? Hk Hds]; subst.
  rewrite getInput_echo_ordinary by exact Hk. cbn. now rewrite IH.
Qed.

(** X1.  Keys that are neither [#] nor [*], followed by [*]: [getInput]
    returns exactly the text of these keys, has taken them and the [*]
    from the keypad, and has printed each key, once and in order. *)
Theorem getInput_returns_keys fuel ds rest st :
  Forall (fun k => ordinary k = true) ds ->
  keypad st = ds ++ "*"%char :: rest ->
  (List.length ds < fuel)%nat ->
  getInput fuel st
  = (Some (string_of_list_ascii ds),
     set_trace (trace st ++ map (fun k => LcdPrint (String k EmptyString)) ds)
       (set_keypad rest st)).
Proof.
  intros Hds Hpad Hfuel. unfold getInput.
  rewrite (getInput_poll_spec ds fuel EmptyString " "%char rest st);
    [|reflexivity|apply ordinary_no_star; exact Hds|exact Hpad|exact Hfuel].
  rewrite typed_ordinary, echo_ordinary by exact Hds. reflexivity.
Qed.

Lemma getInput_returns_keys_witness :
  fst (getInput 9
         (mkSketch 0 "170" 5 (fun _ => 255) ["1"; "7"; "0"; "*"; "4"]%char [] []))
  = Some "170"%string.
Proof.
  rewrite (getInput_returns_keys 9 ["1"; "7"; "0"]%char ["4"]%char).
  - reflexivity.
  - repeat constructor.
  - reflexivity.
  - cbn. lia.
Defined.

Lemma typed_app keys1 keys2 input :
  typed (keys1 ++ keys2) input = typed keys2 (typed keys1 input).
Proof. apply fold_left_app. Qed.

Lemma echo_app h keys1 keys2 input :
  echo h (keys1 ++ keys2) input
  = echo h keys1 input ++ echo h keys2 (typed keys1 input).
Proof.
  revert input. induction keys1 as [|k ks IH]; intros input; cbn; [reflexivity|].
  rewrite IH, <- app_assoc. reflexivity.
Qed.

Lemma getInput_edit_undo input c :
  ordinary c = true ->
  getInput_edit (getInput_edit input c) "#" = input.
Proof.
  intros Hc. rewrite (getInput_edit_ordinary input c Hc).
  unfold getInput_edit.
  replace (is_key "#" "#") with true by reflexivity.
  rewrite strlen_append.
  replace (0 <? strlen input + strlen (String c EmptyString)) with true.
  - apply drop_last_append.
  - symmetry. apply Z.ltb_lt. unfold strlen. cbn. lia.
Qed.

(** X2.  A key followed by [#] is taken back: wherever the pair stands
    in the keys before [*], [getInput] returns the text it returns
    without the pair. *)
Theorem getInput_backspace_cancels fuel pre c post rest st1 st2 :
  ordinary c = true ->
  Forall (fun k => is_key k "*" = false) pre ->
  Forall (fun k => is_key k "*" = false) post ->
  keypad st1 = pre ++ c :: "#"%char :: post ++ "*"%char :: rest ->
  keypad st2 = pre ++ post ++ "*"%char :: rest ->
  (List.length pre + List.length post + 2 < fuel)%nat ->
  fst (getInput fuel st1) = Some (typed (pre ++ post) EmptyString) /\
  fst (getInput fuel st2) = Some (typed (pre ++ post) EmptyString).
Proof.
  intros Hc Hpre Hpost Hpad1 Hpad2 Hfuel. unfold getInput.
  apply ordinary_keys in Hc as Hc'. destruct Hc' as (_ & _ & Hstar).
  rewrite (getInput_poll_spec (pre ++ c :: "#"%char :: post) fuel
             EmptyString " "%char rest st1).
  - rewrite (getInput_poll_spec (pre ++ post) fuel EmptyString " "%char rest st2).
    + cbn [fst]. split; [|reflexivity]. f_equal.
      rewrite !typed_app. cbn [typed fold_left].
      now rewrite getInput_edit_undo.
    + reflexivity.
    + apply Forall_app. split; assumption.
    + rewrite Hpad2, <- app_assoc. reflexivity.
    + rewrite length_app. lia.
  - reflexivity.
  - apply Forall_app. split; [exact Hpre|].
    constructor; [exact Hstar|]. constructor; [reflexivity|exact Hpost].
  - rewrite Hpad1, <- app_assoc. reflexivity.
  - rewrite length_app. cbn. lia.
Qed.

Lemma getInput_backspace_cancels_witness :
  fst (getInput 9
         (mkSketch 0 "18" 5 (fun _ => 255) ["1"; "9"; "#"; "8"; "*"]%char [] []))
  = Some "18"%string.
Proof.
  refine (proj1 (getInput_backspace_cancels 9 ["1"]%char "9"%char ["8"]%char []
    _ (mkSketch 0 "18" 5 (fun _ => 255) ["1"; "8"; "*"]%char [] [])
    _ _ _ _ _ _)).
  - reflexivity.
  - repeat constructor.
  - repeat constructor.
  - reflexivity.
  - reflexivity.
  - cbn. lia.
Defined.

Lemma typed_idle keys :
  forall input,
    typed (filter (fun k => negb (is_key k NO_KEY)) keys) input = typed keys input.
Proof.
  induction keys as [|k ks IH]; intros input; [reflexivity|].
  cbn [filter]. destruct (is_key k NO_KEY) eqn:E; cbn [negb typed fold_left].
  - unfold typed in IH. rewrite IH. f_equal. unfold getInput_edit.
    apply Ascii.eqb_eq in E. subst k. reflexivity.
  - unfold typed in IH. now rewrite IH.
Qed.

Lemma echo_idle h keys :
  forall input,
    echo h (filter (fun k => negb (is_key k NO_KEY)) keys) input
    = echo h keys input.
Proof.
  induction keys as [|k ks IH]; intros input; [reflexivity|].
  cbn [filter]. destruct (is_key k NO_KEY) eqn:E; cbn [negb echo].
  - rewrite IH. apply Ascii.eqb_eq in E. subst k. reflexivity.
  - now rewrite IH.
Qed.

(** X3.  Polls that find no key pressed change nothing: with the idle
    polls taken out of the keys before [*], [getInput] returns the same
    text and leaves the same display and the same state. *)
Theorem getInput_ignores_idle_polls fuel keys rest st :
  Forall (fun k => is_key k "*" = false) keys ->
  keypad st = keys ++ "*"%char :: rest ->
  (List.length keys < fuel)%nat ->
  getInput fuel
    (set_keypad (filter (fun k => negb (is_key k NO_KEY)) keys
                 ++ "*"%char :: rest) st)
  = getInput fuel st.
Proof.
  intros Hkeys Hpad Hfuel. unfold getInput.
  rewrite (getInput_poll_spec keys fuel EmptyString " "%char rest st);
    [|reflexivity|exact Hkeys|exact Hpad|exact Hfuel].
  erewrite getInput_poll_spec; [|reflexivity| |reflexivity|].
  - rewrite typed_idle, echo_idle. destruct st; reflexivity.
  - apply Forall_forall. intros k Hk. apply filter_In in Hk as [Hk _].
    rewrite Forall_forall in Hkeys. apply Hkeys. exact Hk.
  - eapply Nat.le_lt_trans; [apply filter_length_le|exact Hfuel].
Qed.

Lemma getInput_ignores_idle_polls_witness :
  getInput 9 (mkSketch 0 "9" 5 (fun _ => 255) ["9"; "*"]%char [] [])
  = getInput 9
      (mkSketch 0 "9" 5 (fun _ => 255)
         [NO_KEY; "9"%char; NO_KEY; NO_KEY; "*"%char] [] []).
Proof.
  refine (getInput_ignores_idle_polls 9 [NO_KEY; "9"%char; NO_KEY; NO_KEY] []
    (mkSketch 0 "9" 5 (fun _ => 255)
       [NO_KEY; "9"%char; NO_KEY; NO_KEY; "*"%char] [] []) _ _ _).
  - repeat constructor.
  - reflexivity.
  - cbn. lia.
Defined.

Lemma typed_backspaces n : typed (repeat "#"%char n) EmptyString = EmptyString.
Proof. induction n as [|n IH]; [reflexivity|exact IH]. Qed.

Lemma echo_backspaces h n : echo h (repeat "#"%char n) EmptyString = [].
Proof. induction n as [|n IH]; [reflexivity|exact IH]. Qed.

(** X4.  [#] on an empty field does nothing: any number of [#] pressed
    before the first character changes neither the text returned nor the
    display nor the state left. *)
Theorem getInput_backspace_on_empty fuel n keys rest st :
  Forall (fun k => is_key k "*" = false) keys ->
  keypad st = repeat "#"%char n ++ keys ++ "*"%char :: rest ->
  (n + List.length keys < fuel)%nat ->
  getInput fuel st
  = getInput fuel (set_keypad (keys ++ "*"%char :: rest) st).
Proof.
  intros Hkeys Hpad Hfuel. unfold getInput.
  rewrite (getInput_poll_spec (repeat "#"%char n ++ keys) fuel
             EmptyString " "%char rest st).
  - erewrite (getInput_poll_spec keys);
      [|reflexivity|exact Hkeys|reflexivity|lia].
    rewrite typed_app, echo_app, typed_backspaces, echo_backspaces.
    destruct st; reflexivity.
  - reflexivity.
  - apply Forall_app. split; [|exact Hkeys].
    apply Forall_forall. intros k Hk. apply repeat_spec in Hk. now subst k.
  - rewrite Hpad, <- app_assoc. reflexivity.
  - rewrite length_app, repeat_length. exact Hfuel.
Qed.

Lemma getInput_backspace_on_empty_witness :
  getInput 9 (mkSketch 0 "9" 5 (fun _ => 255) ["#"; "#"; "9"; "*"]%char [] [])
  = getInput 9 (mkSketch 0 "9" 5 (fun _ => 255) ["9"; "*"]%char [] []).
Proof.
  refine (getInput_backspace_on_empty 9 2 ["9"]%char []
    (mkSketch 0 "9" 5 (fun _ => 255) ["#"; "#"; "9"; "*"]%char [] []) _ _ _).
  - repeat constructor.
  - reflexivity.
  - cbn. lia.
Defined.

Lemma getInput_poll_waits fuel :
  forall input key st,
    is_key key "*" = false ->
    Forall (fun k => is_key k "*" = false) (keypad st) ->
    fst (getInput_poll fuel input key st) = None.
Proof.
  induction fuel as [|fuel IH]; intros input key st Hkey Hpad;
    cbn [getInput_poll]; rewrite Hkey; [reflexivity|].
  destruct st as [sc an hl m kp rg tr]. cbn in Hpad.
  unfold bind at 1. unfold keypad_getKey. cbn [keypad].
  destruct kp as [|k kp].
  - cbn -[getInput_poll]. apply IH; [reflexivity|constructor].
  - inversion Hpad as [|? ? Hk Hkp]; subst.
    cbn [set_keypad score answer headerLen eeprom rng trace].
    destruct (is_key k "#").
    + destruct (0 <? strlen input); cbn -[getInput_poll drop_last strlen uint8 Z.add];
        apply IH; assumption.
    + rewrite Hk. destruct (is_key k NO_KEY); cbn -[getInput_poll];
        apply IH; assumption.
Qed.

(** X5.  Without a [*] among the keys to come, [getInput] does not
    return, however long it polls. *)
Theorem getInput_waits_for_star fuel st :
  Forall (fun k => is_key k "*" = false) (keypad st) ->
  fst (getInput fuel st) = None.
Proof. intros H. apply getInput_poll_waits; [reflexivity|exact H]. Qed.

Lemma getInput_waits_for_star_witness :
  fst (getInput 50
         (mkSketch 0 "9" 5 (fun _ => 255) ["9"; "#"; "1"; "2"]%char [] []))
  = None.
Proof. apply getInput_waits_for_star. repeat constructor. Defined.

Lemma chars_append s t :
  list_ascii_of_string (s ++ t)%string
  = list_ascii_of_string s ++ list_ascii_of_string t.
Proof. induction s as [|c s IH]; cbn; [reflexivity|now rewrite IH]. Qed.

Lemma chars_substring n :
  forall s, list_ascii_of_string (substring 0 n s)
            = firstn n (list_ascii_of_string s).
Proof.
  induction n as [|n IH]; intros [|c s]; cbn; try reflexivity.
  now rewrite IH.
Qed.

Lemma Forall_prefix {A} (P : A -> Prop) n :
  forall l, Forall P l -> Forall P (firstn n l).
Proof.
  induction n as [|n IH]; intros l H; [constructor|].
  destruct H as [|x l Hx Hl]; cbn; [constructor|].
  constructor; [exact Hx|apply IH; exact Hl].
Qed.

Lemma chars_length s : List.length (list_ascii_of_string s) = String.length s.
Proof. induction s as [|c s IH]; cbn; [reflexivity|now rewrite IH]. Qed.

Lemma getInput_edit_chars input k :
  Forall (fun c => ordinary c = true) (list_ascii_of_string input) ->
  Forall (fun c => ordinary c = true)
    (list_ascii_of_string (getInput_edit input k)).
Proof.
  intros H. unfold getInput_edit.
  destruct (is_key k "#") eqn:E1.
  - destruct (0 <? strlen input); [|exact H].
    unfold drop_last. rewrite chars_substring. apply Forall_prefix. exact H.
  - destruct (is_key k NO_KEY) eqn:E2; [exact H|].
    destruct (is_key k "*") eqn:E3; [exact H|]. cbn [negb andb].
    rewrite chars_append. apply Forall_app. split; [exact H|].
    constructor; [|constructor]. unfold ordinary. now rewrite E1, E2, E3.
Qed.

Lemma getInput_edit_length input k :
  (String.length (getInput_edit input k) <= S (String.length input))%nat.
Proof.
  unfold getInput_edit. destruct (is_key k "#").
  - destruct (0 <? strlen input); [|lia].
    unfold drop_last. rewrite <- !chars_length, chars_substring.
    rewrite length_firstn. lia.
  - destruct (negb (is_key k NO_KEY) && negb (is_key k "*")); [|lia].
    rewrite length_append_one. lia.
Qed.

Lemma typed_chars keys :
  forall input,
    Forall (fun c => ordinary c = true) (list_ascii_of_string input) ->
    Forall (fun c => ordinary c = true) (list_ascii_of_string (typed keys input)) /\
    (String.length (typed keys input) <= String.length input + List.length keys)%nat.
Proof.
  induction keys as [|k ks IH]; intros input H; cbn [typed fold_left].
  - split; [exact H|cbn; lia].
  - destruct (IH (getInput_edit input k) (getInput_edit_chars input k H))
      as [Hc Hl].
    split; [exact Hc|]. unfold typed in Hl.
    pose proof (getInput_edit_length input k). cbn [List.length]. lia.
Qed.

(** X6.  Whatever is pressed before [*], the text [getInput] returns is
    made of characters taken from the keys: it contains no [#], no [*]
    and no NUL, and it is no longer than the number of polls. *)
Theorem getInput_text_is_clean fuel keys rest st :
  Forall (fun k => is_key k "*" = false) keys ->
  keypad st = keys ++ "*"%char :: rest ->
  (List.length keys < fuel)%nat ->
  exists text,
    fst (getInput fuel st) = Some text /\
    Forall (fun c => ordinary c = true) (list_ascii_of_string text) /\
    (String.length text <= List.length keys)%nat.
Proof.
  intros Hkeys Hpad Hfuel. exists (typed keys EmptyString). unfold getInput.
  rewrite (getInput_poll_spec keys fuel EmptyString " "%char rest st);
    [|reflexivity|exact Hkeys|exact Hpad|exact Hfuel].
  split; [reflexivity|]. apply (typed_chars keys EmptyString). constructor.
Qed.

Lemma getInput_text_is_clean_witness :
  exists text,
    fst (getInput 9
           (mkSketch 0 "9" 5 (fun _ => 255)
              ["#"; "A"; NO_KEY; "#"; "B"; "*"]%char [] []))
    = Some text /\
    Forall (fun c => ordinary c = true) (list_ascii_of_string text) /\
    (String.length text <= 5)%nat.
Proof.
  refine (getInput_text_is_clean 9 ["#"; "A"; NO_KEY; "#"; "B"]%char []
    (mkSketch 0 "9" 5 (fun _ => 255)
       ["#"; "A"; NO_KEY; "#"; "B"; "*"]%char [] []) _ _ _).
  - repeat constructor.
  - reflexivity.
  - cbn. lia.
Defined.

(** ** [printQuestion] *)

Lemma bind_returns {A B} (m : M A) (k : A -> M B) st b st' :
  bind m k st = (Some b, st') ->
  exists a st1, m st = (Some a, st1) /\ k a st1 = (Some b, st').
Proof.
  unfold bind. destruct (m st) as [[a|] st1]; [|discriminate].
  intros H. exists a, st1. split; [reflexivity|exact H].
Qed.

Lemma bind_run {A B} (m : M A) (k : A -> M B) st a st1 :
  m st = (Some a, st1) -> bind m k st = k a st1.
Proof. intros H. unfold bind. now rewrite H. Qed.

(** [random(lo, hi)] takes at most one draw and, on a range that is not
    empty, returns a number of the range. *)
Lemma random_spec lo hi st :
  exists v r,
    random lo hi st = (Some v, set_rng r st) /\ (lo < hi -> lo <= v < hi).
Proof.
  destruct st as [sc an hl m kp rg tr]. unfold random. cbn [rng].
  destruct (Z.leb_spec hi lo) as [Hle|Hlt].
  - exists lo, rg. split; [reflexivity|lia].
  - destruct rg as [|r rest].
    + exists lo, []. split; [reflexivity|lia].
    + exists (r mod (hi - lo) + lo), rest. split; [reflexivity|]. intros _.
      pose proof (Z.mod_pos_bound r (hi - lo)). lia.
Qed.

Lemma set_rng_twice r1 r2 st : set_rng r2 (set_rng r1 st) = set_rng r2 st.
Proof. reflexivity. Qed.

(** The answer format, once redrawn, differs from the question format. *)
Lemma printQuestion_redraw_spec fuel :
  forall q a st a' st',
    printQuestion_redraw fuel q a st = (Some a', st') ->
    1 <= a < 4 ->
    a' <> q /\ 1 <= a' < 4 /\ exists r, st' = set_rng r st.
Proof.
  induction fuel as [|fuel IH]; intros q a st a' st' H Ha;
    cbn [printQuestion_redraw] in H; destruct (Z.eqb_spec a q) as [->|Hne].
  - discriminate H.
  - injection H as <- <-. repeat split; try lia.
    exists (rng st). destruct st; reflexivity.
  - apply bind_returns in H as (a1 & st1 & H1 & H2).
    destruct (random_spec 1 4 st) as (v & r & Hv & Hrange).
    rewrite Hv in H1. injection H1 as <- <-.
    destruct (IH q v (set_rng r st) a' st' H2 (Hrange ltac:(lia)))
      as (Hq & Hr & r' & ->).
    repeat split; try lia. exists r'. reflexivity.
  - injection H as <- <-. repeat split; try lia.
    exists (rng st). destruct st; reflexivity.
Qed.

(** The three tables are parallel: at every index the entries denote
    the same number, each in its format. *)
Lemma tables_parallel idx f g :
  1 <= idx <= 10 -> 1 <= f <= 3 -> 1 <= g <= 3 ->
  number_of f (table_at (table f) idx) = number_of g (table_at (table g) idx).
Proof.
  intros Hi Hf Hg.
  assert (idx = 1 \/ idx = 2 \/ idx = 3 \/ idx = 4 \/ idx = 5 \/ idx = 6 \/
          idx = 7 \/ idx = 8 \/ idx = 9 \/ idx = 10) as Hidx by lia.
  assert (f = 1 \/ f = 2 \/ f = 3) as Hf' by lia.
  assert (g = 1 \/ g = 2 \/ g = 3) as Hg' by lia.
  repeat match goal with H : _ \/ _ |- _ => destruct H as [H|H] end;
    subst; reflexivity.
Qed.

(** [printQuestion], when it returns, has chosen two different formats
    and an index of the tables, and leaves the state these determine. *)
Lemma printQuestion_spec fuel st u st' :
  printQuestion fuel st = (Some u, st') ->
  exists q a idx r,
    1 <= q <= 3 /\ 1 <= a <= 3 /\ q <> a /\ 1 <= idx <= 10 /\
    st' = printQuestion_state q a idx r st.
Proof.
  intros H. unfold printQuestion in H.
  destruct (random_spec 1 4 st) as (q & r1 & Hq & Hqr).
  rewrite (bind_run _ _ _ _ _ Hq) in H.
  destruct (random_spec 1 4 (set_rng r1 st)) as (a0 & r2 & Ha0 & Ha0r).
  rewrite (bind_run _ _ _ _ _ Ha0) in H. rewrite set_rng_twice in H.
  apply bind_returns in H as (a & st2 & Hredraw & H).
  apply printQuestion_redraw_spec in Hredraw as (Hne & Har & r3 & ->);
    [|apply Ha0r; lia].
  rewrite set_rng_twice in H.
  destruct (random_spec 1 (numAmount + 1) (set_rng r3 st))
    as (idx & r4 & Hidx & Hidxr).
  rewrite (bind_run _ _ _ _ _ Hidx) in H. rewrite set_rng_twice in H.
  specialize (Hqr ltac:(lia)). specialize (Hidxr ltac:(unfold numAmount; lia)).
  unfold numAmount in Hidxr.
  exists q, a, idx, r4.
  assert (q = 1 \/ q = 2 \/ q = 3) as Hq' by lia.
  assert (a = 1 \/ a = 2 \/ a = 3) as Ha' by lia.
  destruct st as [sc an hl m kp rg tr].
  repeat match goal with Hor : _ \/ _ |- _ => destruct Hor as [Hor|Hor] end;
    subst q a; try (exfalso; apply Hne; reflexivity);
    cbn -[table_at strlen] in H; injection H as _ <-;
    repeat split; try lia;
    unfold printQuestion_state, printQuestion_trace;
    cbn -[table_at]; rewrite <- ?app_assoc; reflexivity.
Qed.

(** X7.  When [printQuestion] returns, it has shown a number in one
    format and asked for another format; the answer it stores is the
    table entry of the same index in that other format, so it denotes
    the number that was shown; [headerLen] is the length of the header
    printed on the answer line.  Score, keypad and EEPROM are as before. *)
Theorem printQuestion_asks_consistently fuel st u st' :
  printQuestion fuel st = (Some u, st') ->
  exists q a idx,
    1 <= q <= 3 /\ 1 <= a <= 3 /\ q <> a /\ 1 <= idx <= 10 /\
    run_trace (printQuestion fuel) st
    = [LcdClear; LcdPrint (header q); LcdPrint (table_at (table q) idx);
       LcdSetCursor 0 1; LcdPrint "To "; LcdPrint (header a)] /\
    answer st' = table_at (table a) idx /\
    headerLen st' = strlen (header a) /\
    number_of a (answer st') = number_of q (table_at (table q) idx) /\
    score st' = score st /\ eeprom st' = eeprom st /\ keypad st' = keypad st.
Proof.
  intros H.
  destruct (printQuestion_spec fuel st u st' H)
    as (q & a & idx & r & Hq & Ha & Hne & Hidx & Hst).
  exists q, a, idx. repeat split; try lia; try (subst st'; reflexivity).
  - apply run_trace_app. unfold exec. rewrite H. subst st'. reflexivity.
  - subst st'. cbn [answer printQuestion_state set_answer].
    apply tables_parallel; lia.
Qed.

Lemma printQuestion_asks_consistently_witness :
  exists q a idx,
    1 <= q <= 3 /\ 1 <= a <= 3 /\ q <> a /\ 1 <= idx <= 10 /\
    run_trace (printQuestion 3) (mkSketch 0 "" 0 (fun _ => 255) [] [4; 7; 5; 12] [])
    = [LcdClear; LcdPrint (header q); LcdPrint (table_at (table q) idx);
       LcdSetCursor 0 1; LcdPrint "To "; LcdPrint (header a)] /\
    answer (exec (printQuestion 3)
              (mkSketch 0 "" 0 (fun _ => 255) [] [4; 7; 5; 12] []))
    = table_at (table a) idx /\
    headerLen (exec (printQuestion 3)
                 (mkSketch 0 "" 0 (fun _ => 255) [] [4; 7; 5; 12] []))
    = strlen (header a) /\
    number_of a (answer (exec (printQuestion 3)
                           (mkSketch 0 "" 0 (fun _ => 255) [] [4; 7; 5; 12] [])))
    = number_of q (table_at (table q) idx) /\
    score (exec (printQuestion 3)
             (mkSketch 0 "" 0 (fun _ => 255) [] [4; 7; 5; 12] [])) = 0 /\
    eeprom (exec (printQuestion 3)
              (mkSketch 0 "" 0 (fun _ => 255) [] [4; 7; 5; 12] []))
    = (fun _ => 255) /\
    keypad (exec (printQuestion 3)
              (mkSketch 0 "" 0 (fun _ => 255) [] [4; 7; 5; 12] [])) = [].
Proof.
  exact (printQuestion_asks_consistently 3
           (mkSketch 0 "" 0 (fun _ => 255) [] [4; 7; 5; 12] []) tt _ eq_refl).
Defined.

(** ** [gameLoop] *)

(** When the loop of [getInput] returns, a [*] was among the keys it
    could poll. *)
Lemma getInput_poll_returned fuel :
  forall input key st text st',
    is_key key "*" = false ->
    getInput_poll fuel input key st = (Some text, st') ->
    exists keys rest,
      Forall (fun k => is_key k "*" = false) keys /\
      keypad st = keys ++ "*"%char :: rest /\
      (List.length keys < fuel)%nat.
Proof.
  induction fuel as [|fuel IH]; intros input key st text st' Hkey H;
    cbn [getInput_poll] in H; rewrite Hkey in H; [discriminate H|].
  destruct st as [sc an hl m kp rg tr].
  unfold bind at 1 in H. unfold keypad_getKey in H. cbn [keypad] in H.
  destruct kp as [|k kp].
  - cbn -[getInput_poll] in H.
    apply IH in H as (keys & rest & _ & Hpad & _); [|reflexivity].
    cbn in Hpad. destruct keys; discriminate Hpad.
  - cbn [set_keypad score answer headerLen eeprom rng trace] in H.
    destruct (is_key k "*") eqn:Hk.
    + exists [], kp. apply Ascii.eqb_eq in Hk. subst k.
      repeat split; [constructor|cbn; lia].
    + assert (exists keys rest,
                Forall (fun k => is_key k "*" = false) keys /\
                kp = keys ++ "*"%char :: rest /\
                (List.length keys < fuel)%nat) as (keys & rest & Hks & -> & Hlen).
      { destruct (is_key k "#").
        - destruct (0 <? strlen input);
            cbn -[getInput_poll drop_last strlen uint8 Z.add] in H;
            apply IH in H as (keys & rest & Hks & Hpad & Hlen);
            try exact Hk; exists keys, rest; repeat split; assumption.
        - destruct (is_key k NO_KEY); cbn -[getInput_poll] in H;
            apply IH in H as (keys & rest & Hks & Hpad & Hlen);
            try exact Hk; exists keys, rest; repeat split; assumption. }
      exists (k :: keys), rest. repeat split.
      * constructor; assumption.
      * cbn. lia.
Qed.

(** [gameLoop], when it returns, has asked a question, taken the keys up
    to the first [*] and judged the text they left against the expected
    answer. *)
Lemma gameLoop_spec fuel st ok st' :
  gameLoop fuel st = (Some ok, st') ->
  exists q a idx r keys rest,
    1 <= q <= 3 /\ 1 <= a <= 3 /\ q <> a /\ 1 <= idx <= 10 /\
    Forall (fun k => is_key k "*" = false) keys /\
    keypad st = keys ++ "*"%char :: rest /\
    ok = String.eqb (typed keys EmptyString) (table_at (table a) idx) /\
    st' = gameLoop_state q a idx r keys rest st.
Proof.
  intros H. unfold gameLoop in H.
  apply bind_returns in H as (u & st1 & Hpq & H).
  apply printQuestion_spec in Hpq as (q & a & idx & r & Hq & Ha & Hne & Hidx & ->).
  unfold bind at 1 in H. cbn [lcd_cursor emit] in H.
  apply bind_returns in H as (input & st2 & Hin & H).
  unfold getInput in Hin. pose proof Hin as Hret.
  apply getInput_poll_returned in Hret as (keys & rest & Hks & Hpad & Hlen);
    [|reflexivity].
  rewrite (getInput_poll_spec keys fuel EmptyString " "%char rest) in Hin;
    [|reflexivity|exact Hks|exact Hpad|exact Hlen].
  injection Hin as <- <-.
  exists q, a, idx, r, keys, rest.
  destruct st as [sc an hl m kp rg tr]. cbn in Hpad. subst kp.
  unfold gameLoop_state, gameLoop_trace, gameLoop_verdict.
  cbn -[table_at typed echo strlen printQuestion_trace int16 String.eqb] in H.
  destruct (String.eqb (typed keys EmptyString) (table_at (table a) idx));
    cbn -[table_at typed echo strlen printQuestion_trace int16] in H;
    injection H as <- <-;
    (repeat split; try assumption; try lia; try reflexivity);
    cbn -[table_at typed echo strlen printQuestion_trace int16];
    rewrite <- ?app_assoc; reflexivity.
Qed.

Lemma printed_app s tr1 tr2 :
  printed s (tr1 ++ tr2) = (printed s tr1 + printed s tr2)%nat.
Proof. unfold printed. now rewrite filter_app, length_app. Qed.

Lemma eqb_one_char k c1 c2 s :
  String.eqb (String k EmptyString) (String c1 (String c2 s)) = false.
Proof. cbn [String.eqb]. destruct (Ascii.eqb k c1); reflexivity. Qed.

(** The echo of the keys prints one character at a time. *)
Lemma printed_echo s h keys :
  (2 <= String.length s)%nat ->
  forall input, printed s (echo h keys input) = 0%nat.
Proof.
  intros Hs. destruct s as [|c1 [|c2 s]]; try (cbn in Hs; lia).
  induction keys as [|k ks IH]; intros input; [reflexivity|].
  cbn [echo]. rewrite printed_app, IH. unfold getInput_echo.
  destruct (is_key k "#").
  - destruct (0 <? strlen input); [|reflexivity].
    unfold printed. cbn [filter]. rewrite eqb_one_char. reflexivity.
  - destruct (negb (is_key k NO_KEY) && negb (is_key k "*")); [|reflexivity].
    unfold printed. cbn [filter]. rewrite eqb_one_char. reflexivity.
Qed.

(** No header and no table entry is one of the two verdicts. *)
Lemma printQuestion_trace_printed s q a idx :
  s = "Correct!"%string \/ s = "Incorrect!"%string ->
  1 <= q <= 3 -> 1 <= a <= 3 -> 1 <= idx <= 10 ->
  printed s (printQuestion_trace q a idx) = 0%nat /\
  String.eqb (table_at (table a) idx) s = false.
Proof.
  intros Hs Hq Ha Hi.
  assert (idx = 1 \/ idx = 2 \/ idx = 3 \/ idx = 4 \/ idx = 5 \/ idx = 6 \/
          idx = 7 \/ idx = 8 \/ idx = 9 \/ idx = 10) as Hidx by lia.
  assert (q = 1 \/ q = 2 \/ q = 3) as Hq' by lia.
  assert (a = 1 \/ a = 2 \/ a = 3) as Ha' by lia.
  repeat match goal with H : _ \/ _ |- _ => destruct H as [H|H] end;
    subst; split; reflexivity.
Qed.

(** One round shows exactly one verdict, the one it returns. *)
Lemma gameLoop_trace_printed q a idx keys :
  1 <= q <= 3 -> 1 <= a <= 3 -> 1 <= idx <= 10 ->
  let ok := String.eqb (typed keys EmptyString) (table_at (table a) idx) in
  printed "Correct!" (gameLoop_trace q a idx keys) = (if ok then 1 else 0)%nat /\
  printed "Incorrect!" (gameLoop_trace q a idx keys) = (if ok then 0 else 1)%nat.
Proof.
  intros Hq Ha Hi ok.
  destruct (printQuestion_trace_printed "Correct!" q a idx
              (or_introl eq_refl) Hq Ha Hi) as [Hc1 Hc2].
  destruct (printQuestion_trace_printed "Incorrect!" q a idx
              (or_intror eq_refl) Hq Ha Hi) as [Hi1 Hi2].
  unfold gameLoop_trace. fold ok. rewrite !printed_app, Hc1, Hi1.
  rewrite !printed_echo by (cbn; lia).
  unfold gameLoop_verdict. destruct ok.
  - split; reflexivity.
  - unfold printed. cbn -[table_at String.eqb].
    rewrite Hc2, Hi2. split; reflexivity.
Qed.

Lemma first_star_unique (keys keys' rest rest' : list ascii) :
  Forall (fun k => is_key k "*" = false) keys ->
  Forall (fun k => is_key k "*" = false) keys' ->
  keys ++ "*"%char :: rest = keys' ++ "*"%char :: rest' ->
  keys = keys' /\ rest = rest'.
Proof.
  intros H. revert keys'. induction H as [|k ks Hk Hks IH];
    intros keys' H' E; destruct H' as [|k' ks' Hk' Hks']; cbn in E.
  - injection E as ->. split; reflexivity.
  - injection E as <- _. discriminate Hk'.
  - injection E as -> _. discriminate Hk.
  - injection E as <- E. destruct (IH ks' Hks' E) as [-> ->].
    split; reflexivity.
Qed.

(** X8.  A round of [gameLoop] that returns has judged the text typed
    before the first [*] against the stored answer: it returns [true]
    exactly when they are equal, and then has added one to the score
    and shown "Correct!"; otherwise the score is as before and it has
    shown "Incorrect!" and then the expected answer.  It takes the keys
    up to that [*] and leaves the EEPROM alone. *)
Theorem gameLoop_judges_text fuel keys rest st ok st' :
  gameLoop fuel st = (Some ok, st') ->
  Forall (fun k => is_key k "*" = false) keys ->
  keypad st = keys ++ "*"%char :: rest ->
  ok = String.eqb (typed keys EmptyString) (answer st') /\
  score st' = (if ok then int16 (score st + 1) else score st) /\
  keypad st' = rest /\ eeprom st' = eeprom st /\
  printed "Correct!" (run_trace (gameLoop fuel) st) = (if ok then 1 else 0)%nat /\
  printed "Incorrect!" (run_trace (gameLoop fuel) st) = (if ok then 0 else 1)%nat /\
  (ok = false ->
   exists before,
     run_trace (gameLoop fuel) st
     = before ++ [LcdPrint "Incorrect!"; Delay 2000; LcdClear;
                  LcdPrint "Answer was: "; LcdSetCursor 0 1;
                  LcdPrint (answer st'); Delay 2000]).
Proof.
  intros H Hkeys Hpad.
  destruct (gameLoop_spec fuel st ok st' H)
    as (q & a & idx & r & keys' & rest' & Hq & Ha & Hne & Hidx & Hks' & Hpad'
        & Hok & Hst).
  rewrite Hpad in Hpad'.
  destruct (first_star_unique _ _ _ _ Hkeys Hks' Hpad') as [<- <-].
  assert (run_trace (gameLoop fuel) st = gameLoop_trace q a idx keys) as Htr.
  { apply run_trace_app. unfold exec. rewrite H, Hst. reflexivity. }
  destruct (gameLoop_trace_printed q a idx keys Hq Ha Hidx) as [Hc Hi].
  rewrite <- Hok in Hc, Hi.
  rewrite Htr, Hst. cbn [gameLoop_state set_score set_trace set_keypad set_answer
    set_headerLen set_rng score answer keypad eeprom].
  rewrite <- Hok.
  repeat split; try assumption.
  intros ->. unfold gameLoop_trace. rewrite <- Hok. unfold gameLoop_verdict.
  exists (printQuestion_trace q a idx ++ [LcdCursor true]
          ++ echo (strlen (header a)) keys EmptyString
          ++ [LcdCursor false; LcdClear]).
  rewrite <- !app_assoc. reflexivity.
Qed.

Lemma gameLoop_judges_text_witness :
  score (exec (gameLoop 5)
           (mkSketch 0 "" 0 (fun _ => 255) ["1"; "7"; "0"; "*"]%char [0; 1; 0] []))
  = 1.
Proof.
  refine (proj1 (proj2 (gameLoop_judges_text 5 ["1"; "7"; "0"]%char []
    (mkSketch 0 "" 0 (fun _ => 255) ["1"; "7"; "0"; "*"]%char [0; 1; 0] [])
    true
    (exec (gameLoop 5)
       (mkSketch 0 "" 0 (fun _ => 255) ["1"; "7"; "0"; "*"]%char [0; 1; 0] []))
    _ _ _))).
  - vm_compute. reflexivity.
  - repeat constructor.
  - reflexivity.
Defined.

(** ** [loop] *)

Lemma int16_range z : -32768 <= int16 z < 32768.
Proof. unfold int16. pose proof (Z.mod_pos_bound (z + 32768) 65536). lia. Qed.

Lemma int16_small z : -32768 <= z < 32768 -> int16 z = z.
Proof. intros H. unfold int16. rewrite Z.mod_small by lia. lia. Qed.

Lemma int16_add_l x y : int16 (int16 x + y) = int16 (x + y).
Proof.
  unfold int16. f_equal.
  replace ((x + 32768) mod 65536 - 32768 + y + 32768)
    with ((x + 32768) mod 65536 + y) by lia.
  rewrite Zplus_mod_idemp_l. f_equal. lia.
Qed.

(** The first loop of [loop] only takes keys. *)
Lemma loop_wait_spec fuel :
  forall key st u st',
    loop_wait fuel key st = (Some u, st') -> exists kp, st' = set_keypad kp st.
Proof.
  induction fuel as [|fuel IH]; intros key st u st' H; cbn [loop_wait] in H;
    destruct (is_key key "*").
  - injection H as _ <-. exists (keypad st). destruct st; reflexivity.
  - discriminate H.
  - injection H as _ <-. exists (keypad st). destruct st; reflexivity.
  - apply bind_returns in H as (k & st1 & Hk & H).
    apply IH in H as (kp & ->). unfold keypad_getKey in Hk.
    destruct (keypad st) as [|k' rest]; injection Hk as _ <-.
    + exists kp. reflexivity.
    + exists kp. reflexivity.
Qed.

(** The rounds of a game, when they end: the EEPROM is as before, the
    score has grown by the number of "Correct!" shown, and "Incorrect!"
    was shown once. *)
Lemma loop_play_spec inner fuel :
  forall st u st',
    loop_play inner fuel st = (Some u, st') ->
    -32768 <= score st < 32768 ->
    eeprom st' = eeprom st /\
    exists tr,
      trace st' = trace st ++ tr /\
      score st' = int16 (score st + Z.of_nat (printed "Correct!" tr)) /\
      printed "Incorrect!" tr = 1%nat.
Proof.
  induction fuel as [|fuel IH]; intros st u st' H Hrange; cbn [loop_play] in H;
    [discriminate H|].
  apply bind_returns in H as (ok & st1 & Hgame & H).
  apply gameLoop_spec in Hgame
    as (q & a & idx & r & keys & rest & Hq & Ha & Hne & Hidx & Hks & Hpad
        & Hok & Hst1).
  destruct (gameLoop_trace_printed q a idx keys Hq Ha Hidx) as [Hc Hi].
  cbv zeta in Hc, Hi. rewrite <- Hok in Hc, Hi.
  assert (score st1 = if ok then int16 (score st + 1) else score st) as Hsc
    by (rewrite Hst1, Hok; reflexivity).
  assert (trace st1 = trace st ++ gameLoop_trace q a idx keys) as Htr
    by (rewrite Hst1; reflexivity).
  assert (eeprom st1 = eeprom st) as Hm by (rewrite Hst1; reflexivity).
  clear Hst1. destruct ok.
  - apply bind_returns in H as (u1 & s1 & H1 & H). injection H1 as _ <-.
    apply bind_returns in H as (u2 & s2 & H2 & H). injection H2 as _ <-.
    apply bind_returns in H as (sc & s3 & H3 & H). injection H3 as <- <-.
    apply bind_returns in H as (u4 & s4 & H4 & H). injection H4 as _ <-.
    apply bind_returns in H as (u5 & s5 & H5 & H). injection H5 as _ <-.
    apply IH in H as (Hm' & tr & Htr' & Hsc' & Hinc);
      [|cbn [score set_trace]; rewrite Hsc; apply int16_range].
    cbn [eeprom trace score set_trace] in Hm', Htr', Hsc'.
    split; [congruence|].
    exists (gameLoop_trace q a idx keys
            ++ [LcdClear; LcdPrint "Score: "; LcdPrintNum (score st1);
                Delay 1500] ++ tr).
    split; [|split].
    + rewrite Htr', Htr, <- !app_assoc. reflexivity.
    + rewrite Hsc', Hsc, !printed_app, Hc. rewrite int16_add_l.
      assert (forall n, printed "Correct!"
                [LcdClear; LcdPrint "Score: "; LcdPrintNum n; Delay 1500]
              = 0%nat) as Hline by reflexivity.
      rewrite Hline. f_equal. lia.
    + rewrite !printed_app, Hi, Hinc. reflexivity.
  - injection H as _ <-. split; [exact Hm|].
    exists (gameLoop_trace q a idx keys). split; [exact Htr|]. split.
    + rewrite Hsc, Hc, Z.add_0_r. symmetry. apply int16_small. exact Hrange.
    + exact Hi.
Qed.

Lemma fullPagePrint_run line1 line2 st :
  fullPagePrint line1 line2 st
  = (Some tt,
     set_trace (trace st ++ [LcdClear; LcdPrint line1; LcdSetCursor 0 1;
                             LcdPrint line2]) st).
Proof.
  destruct st. unfold fullPagePrint, bind, lcd_clear, lcd_print, lcd_setCursor, emit.
  cbn. rewrite <- !app_assoc. reflexivity.
Qed.

Lemma printed_scan_trace s k sc m : printed s (scan_trace k sc m) = 0%nat.
Proof.
  induction k as [|i IH]; [reflexivity|]. cbn [scan_trace].
  destruct (sc >? m i); [|reflexivity].
  rewrite printed_app, IH. unfold overwrite.
  destruct (Nat.ltb i 4); reflexivity.
Qed.

(** [showHighScores] shows no verdict. *)
Lemma printed_showHighScores_trace s sc m :
  s = "Correct!"%string \/ s = "Incorrect!"%string ->
  printed s (showHighScores_trace sc m) = 0%nat.
Proof.
  intros Hs. unfold showHighScores_trace.
  rewrite !printed_app, printed_scan_trace.
  destruct Hs as [-> | ->]; destruct (sc >? m 5%nat); reflexivity.
Qed.

(** [loop], when it returns: the rounds played from score 0, then
    [showHighScores] on the score they left. *)
Lemma loop_spec fuel st u st' :
  loop fuel st = (Some u, st') ->
  exists tr,
    printed "Incorrect!" tr = 1%nat /\
    score st' = int16 (Z.of_nat (printed "Correct!" tr)) /\
    (forall a, eeprom st' a = scan_cells 5 (score st') (eeprom st) a) /\
    trace st'
    = trace st ++ loop_intro ++ tr
      ++ [LcdClear; LcdPrint "Final Score: "; LcdPrintNum (score st');
          Delay 1500]
      ++ showHighScores_trace (score st') (eeprom st) ++ [Delay 3000].
Proof.
  intros H. unfold loop in H.
  apply bind_returns in H as (u1 & s1 & H1 & H). injection H1 as _ <-.
  apply bind_returns in H as (u2 & s2 & H2 & H).
  rewrite fullPagePrint_run in H2. injection H2 as _ <-.
  apply bind_returns in H as (u3 & s3 & H3 & H).
  apply loop_wait_spec in H3 as (kp & ->).
  apply bind_returns in H as (u4 & s4 & H4 & H).
  rewrite fullPagePrint_run in H4. injection H4 as _ <-.
  apply bind_returns in H as (u5 & s5 & H5 & H). injection H5 as _ <-.
  apply bind_returns in H as (u6 & s6 & H6 & H). injection H6 as _ <-.
  apply bind_returns in H as (u7 & s7 & H7 & H).
  apply loop_play_spec in H7 as (Hm & tr & Htr & Hsc & Hinc); [|cbn; lia].
  cbn [eeprom trace score set_trace set_keypad set_score] in Hm, Htr, Hsc.
  apply bind_returns in H as (u8 & s8 & H8 & H). injection H8 as _ <-.
  apply bind_returns in H as (u9 & s9 & H9 & H). injection H9 as _ <-.
  apply bind_returns in H as (sc & s10 & H10 & H). injection H10 as <- <-.
  apply bind_returns in H as (u11 & s11 & H11 & H). injection H11 as _ <-.
  apply bind_returns in H as (u12 & s12 & H12 & H). injection H12 as _ <-.
  apply bind_returns in H as (u13 & s13 & H13 & H). injection H as _ <-.
  match type of H13 with showHighScores ?s = _ =>
    pose proof (showHighScores_spec s) as Hshow end.
  cbv zeta in Hshow. rewrite H13 in Hshow.
  cbn [fst snd eeprom trace score set_trace] in Hshow.
  destruct Hshow as (_ & Hs13 & _ & _ & _ & _ & Ht13 & Hm13).
  cbn [eeprom trace score set_trace].
  exists tr. split; [exact Hinc|]. split; [rewrite Hs13, Hsc; reflexivity|].
  split.
  - intros a. rewrite Hm13, Hs13, Hm. reflexivity.
  - rewrite Ht13, Htr, Hs13, Hm. unfold loop_intro.
    rewrite <- !app_assoc. reflexivity.
Qed.

(** X9.  A game that ends has shown "Incorrect!" once, and the score it
    ends with is the number of times it has shown "Correct!" (as a
    16-bit [int]).  It shows that score as the final score and leaves
    the ledger that [showHighScores] makes of it from the ledger the
    game started with: nothing else has touched the EEPROM. *)
Theorem loop_scores_correct_answers fuel st u st' :
  loop fuel st = (Some u, st') ->
  score st' = int16 (Z.of_nat (printed "Correct!" (run_trace (loop fuel) st))) /\
  printed "Incorrect!" (run_trace (loop fuel) st) = 1%nat /\
  (forall a, eeprom st' a = eeprom (exec (recordSession (score st')) st) a) /\
  exists before,
    run_trace (loop fuel) st
    = before
      ++ [LcdPrint "Final Score: "; LcdPrintNum (score st'); Delay 1500]
      ++ showHighScores_trace (score st') (eeprom st) ++ [Delay 3000].
Proof.
  intros H. destruct (loop_spec fuel st u st' H) as (tr & Hinc & Hsc & Hm & Htr).
  assert (run_trace (loop fuel) st
          = loop_intro ++ tr
            ++ [LcdClear; LcdPrint "Final Score: "; LcdPrintNum (score st');
                Delay 1500]
            ++ showHighScores_trace (score st') (eeprom st) ++ [Delay 3000])
    as Hrun.
  { apply run_trace_app. unfold exec. rewrite H. exact Htr. }
  rewrite Hrun, !printed_app.
  rewrite !printed_showHighScores_trace by (auto).
  repeat split.
  - rewrite Hsc. f_equal. f_equal. cbn. lia.
  - rewrite Hinc. cbn. lia.
  - intros a. rewrite recordSession_cells. apply Hm.
  - exists (loop_intro ++ tr ++ [LcdClear]).
    rewrite <- !app_assoc. reflexivity.
Qed.

Lemma loop_scores_correct_answers_witness :
  score (exec (loop 9)
           (game_start ["*"; "1"; "7"; "0"; "*"; "5"; "*"]%char [0; 1; 0; 0; 1; 1]))
  = int16 (Z.of_nat (printed "Correct!"
             (run_trace (loop 9)
                (game_start ["*"; "1"; "7"; "0"; "*"; "5"; "*"]%char
                   [0; 1; 0; 0; 1; 1])))).
Proof.
  refine (proj1 (loop_scores_correct_answers 9
    (game_start ["*"; "1"; "7"; "0"; "*"; "5"; "*"]%char [0; 1; 0; 0; 1; 1]) tt
    (exec (loop 9)
       (game_start ["*"; "1"; "7"; "0"; "*"; "5"; "*"]%char [0; 1; 0; 0; 1; 1]))
    _)).
  vm_compute. reflexivity.
Defined.

(** ** [debugMode] *)

Lemma bind_never {A B} (m : M A) (k : A -> M B) st :
  (forall a st1, fst (k a st1) = None) -> fst (bind m k st) = None.
Proof.
  intros H. unfold bind. destruct (m st) as [[a|] st1]; [apply H|reflexivity].
Qed.

(** X10.  [debugMode] never returns: the test of its loop,
    [key != '#' || key != '*'], holds for every key, so after either
    answer it starts a game and then polls again. *)
Theorem debugMode_never_returns fuel st : fst (debugMode fuel st) = None.
Proof.
  unfold debugMode. repeat (apply bind_never; intros).
  apply debugMode_poll_spins.
Qed.

(** ** More on [showHighScores] *)

Lemma shown_app tr1 tr2 : shown (tr1 ++ tr2) = shown tr1 ++ shown tr2.
Proof. unfold shown. apply flat_map_app. Qed.

Lemma shown_scan_trace k sc m : shown (scan_trace k sc m) = [].
Proof.
  induction k as [|i IH]; [reflexivity|]. cbn [scan_trace].
  destruct (sc >? m i); [|reflexivity].
  rewrite shown_app, IH. unfold overwrite. destruct (Nat.ltb i 4); reflexivity.
Qed.

(** X11.  What [showHighScores] puts on the display is the ledger as the
    same call has left it: the five cells after the update, rank 0
    first. *)
Theorem showHighScores_shows_new_ledger st :
  shown (run_trace showHighScores st) = leaderboard (exec showHighScores st).
Proof.
  rewrite showHighScores_run_trace. unfold showHighScores_trace.
  rewrite !shown_app, shown_scan_trace.
  unfold leaderboard. cbn [map]. rewrite !showHighScores_cells.
  destruct (score st >? eeprom st 5%nat); reflexivity.
Qed.

Lemma existsb_is_write_app tr1 tr2 :
  existsb is_write (tr1 ++ tr2) = existsb is_write tr1 || existsb is_write tr2.
Proof. apply existsb_app. Qed.

(** X12.  [showHighScores] writes to the EEPROM exactly when the score
    exceeds the value in cell 4, whatever the other cells hold. *)
Theorem showHighScores_writes_iff_beats_last st :
  existsb is_write (run_trace showHighScores st)
  = (score st >? eeprom st 4%nat).
Proof.
  rewrite showHighScores_run_trace. unfold showHighScores_trace.
  rewrite !existsb_is_write_app. cbn [scan_trace].
  assert (forall m, existsb is_write (render_trace m) = false) as Hrender
    by reflexivity.
  rewrite Hrender, orb_false_r.
  destruct (score st >? eeprom st 5%nat); cbn [existsb is_write orb notify_trace];
    destruct (score st >? eeprom st 4%nat); reflexivity.
Qed.

(** A second scan with the same score finds the cells as the first one
    left them. *)
Lemma scan_cells_again sc m m1 a :
  (forall b, m1 b = scan_cells 5 sc m b) ->
  scan_cells 5 sc m1 a = m1 a.
Proof.
  intros Hm1. unfold scan_cells at 1.
  destruct (Nat.leb (scan_stop 5 sc m1) a && Nat.ltb a 5) eqn:E; [|reflexivity].
  apply andb_prop in E as [E1 E2].
  apply Nat.leb_le in E1. apply Nat.ltb_lt in E2.
  rewrite Hm1. unfold scan_cells.
  replace (Nat.ltb a 5) with true by (symmetry; apply Nat.ltb_lt; exact E2).
  rewrite andb_true_r.
  destruct (Nat.leb (scan_stop 5 sc m) a) eqn:E3; [reflexivity|].
  apply Nat.leb_gt in E3. exfalso.
  pose proof (scan_stop_le 5 sc m) as Hle.
  destruct (scan_stop 5 sc m) as [|j] eqn:Hstop; [lia|].
  assert (m1 j < sc) as Hbeat by (apply (scan_stop_beaten 5); lia).
  rewrite Hm1 in Hbeat. unfold scan_cells in Hbeat. rewrite Hstop in Hbeat.
  replace (Nat.leb (S j) j) with false in Hbeat
    by (symmetry; apply Nat.leb_gt; lia).
  cbn [andb] in Hbeat. apply scan_stop_holds in Hstop. lia.
Qed.

(** X13.  Recording the same score twice leaves the EEPROM that
    recording it once leaves, for every score and every contents. *)
Theorem recordSession_twice s st a :
  eeprom (exec (recordSession s) (exec (recordSession s) st)) a
  = eeprom (exec (recordSession s) st) a.
Proof.
  rewrite recordSession_cells.
  apply (scan_cells_again s (eeprom st)).
  intros b. apply recordSession_cells.
Qed.

(** X14.  A score that does not fit a cell wipes a ledger of bytes: with
    [256 <= s] every one of the five cells is beaten and ends up holding
    [s mod 256], so a score of 256 leaves five zeros. *)
Theorem recordSession_overflow_floods s st :
  bytes (eeprom st) -> 256 <= s ->
  leaderboard (exec (recordSession s) st) = repeat (s mod 256) 5.
Proof.
  intros Hb Hs.
  assert (scan_stop 5 s (eeprom st) = 0%nat) as Hstop.
  { apply scan_stop_unique; [lia| |discriminate].
    intros t _. specialize (Hb t). lia. }
  unfold leaderboard. cbn [map]. rewrite !recordSession_cells.
  unfold scan_cells. rewrite Hstop. reflexivity.
Qed.

Lemma recordSession_overflow_floods_witness :
  leaderboard (exec (recordSession 256) (game_start [] [])) = [0; 0; 0; 0; 0].
Proof.
  apply (recordSession_overflow_floods 256 (game_start [] [])); [|lia].
  intros a. do 5 (destruct a as [|a]; [cbn; lia|]). cbn. destruct a; lia.
Defined.

(** X15.  A score that fits a cell never lowers an entry: with
    [0 <= s <= 255] every cell holds after the call at least what it
    held before, and at most the larger of that and the score. *)
Theorem recordSession_never_lowers s st a :
  0 <= s < 256 ->
  eeprom st a <= eeprom (exec (recordSession s) st) a <= Z.max (eeprom st a) s.
Proof.
  intros Hs. rewrite recordSession_cells. unfold scan_cells.
  destruct (Nat.leb (scan_stop 5 s (eeprom st)) a && Nat.ltb a 5) eqn:E; [|lia].
  apply andb_prop in E as [E1 E2].
  apply Nat.leb_le in E1. apply Nat.ltb_lt in E2.
  assert (eeprom st a < s) as Hbeat by (apply (scan_stop_beaten 5); lia).
  rewrite uint8_small by exact Hs. lia.
Qed.

Lemma recordSession_never_lowers_witness :
  eeprom (game_start [] []) 2%nat
  <= eeprom (exec (recordSession 6) (game_start [] [])) 2%nat
  <= Z.max (eeprom (game_start [] []) 2%nat) 6.
Proof. apply (recordSession_never_lowers 6 (game_start [] []) 2). lia. Defined.

(** ** Sequences of sessions *)

Lemma after_sessions_cons s rest st :
  after_sessions (s :: rest) st = after_sessions rest (exec (recordSession s) st).
Proof. reflexivity. Qed.

(** On a ranked ledger a score that fits a cell replaces exactly the
    entries below it. *)
Lemma recordSession_max s st a :
  ranked (eeprom st) -> 0 <= s < 256 -> (a < 5)%nat ->
  eeprom (exec (recordSession s) st) a = Z.max (eeprom st a) s.
Proof.
  intros Hr Hs Ha. rewrite recordSession_cells.
  rewrite scan_cells_ranked_pointwise by assumption.
  rewrite uint8_small by exact Hs.
  destruct (Z.ltb_spec (eeprom st a) s); lia.
Qed.

Lemma fold_max_permutation l l' :
  Permutation l l' -> forall z, fold_left Z.max l z = fold_left Z.max l' z.
Proof.
  induction 1 as [|x l l' _ IH|x y l|l1 l2 l3 _ IH1 _ IH2]; intros z; cbn.
  - reflexivity.
  - apply IH.
  - f_equal. lia.
  - now rewrite IH1, IH2.
Qed.

Lemma fold_max_from_zero l :
  Forall (fun s => 0 <= s) l ->
  forall z, 0 <= z -> fold_left Z.max l z = Z.max z (fold_left Z.max l 0).
Proof.
  induction 1 as [|s rest Hs _ IH]; intros z Hz; cbn [fold_left]; [lia|].
  rewrite (IH (Z.max z s)), (IH (Z.max 0 s)) by lia. lia.
Qed.

Lemma sessions_max scores :
  forall st,
    ranked (eeprom st) ->
    Forall (fun s => 0 <= s < 256) scores ->
    ranked (eeprom (after_sessions scores st)) /\
    forall a, (a < 5)%nat ->
      eeprom (after_sessions scores st) a = fold_left Z.max scores (eeprom st a).
Proof.
  induction scores as [|s rest IH]; intros st Hr Hs.
  - split; [exact Hr|reflexivity].
  - inversion Hs as [|? ? Hs0 Hrest]; subst.
    rewrite after_sessions_cons.
    destruct (IH (exec (recordSession s) st)
                (recordSession_ranked s st Hr ltac:(lia)) Hrest) as [Hr' Hm].
    split; [exact Hr'|]. intros a Ha. rewrite Hm by exact Ha. cbn [fold_left].
    now rewrite recordSession_max.
Qed.

(** X16.  The ledger keeps the best score only: after any sessions with
    scores that fit a cell, each cell of a ranked ledger of bytes holds
    the larger of what it held and the best of the scores; the scores below the best
    one leave no trace, and neither does the order of the sessions. *)
Theorem sessions_keep_best_only scores scores' st :
  bytes (eeprom st) ->
  ranked (eeprom st) ->
  Forall (fun s => 0 <= s < 256) scores ->
  Permutation scores scores' ->
  (forall a, (a < 5)%nat ->
     eeprom (after_sessions scores st) a
     = Z.max (eeprom st a) (fold_left Z.max scores 0)) /\
  leaderboard (after_sessions scores' st) = leaderboard (after_sessions scores st).
Proof.
  intros Hb Hr Hs Hperm.
  assert (Forall (fun s => 0 <= s < 256) scores') as Hs'
    by (eapply Permutation_Forall; eassumption).
  destruct (sessions_max scores st Hr Hs) as [_ Hm].
  destruct (sessions_max scores' st Hr Hs') as [_ Hm'].
  split.
  - intros a Ha. rewrite Hm by exact Ha. apply fold_max_from_zero.
    + eapply Forall_impl; [|exact Hs]. intros s Hs0. cbv beta in Hs0. lia.
    + apply Hb.
  - unfold leaderboard. cbn [map]. rewrite !Hm, !Hm' by lia.
    now rewrite !(fold_max_permutation _ _ Hperm).
Qed.

Lemma sessions_keep_best_only_witness :
  leaderboard (after_sessions [15; 3; 6] (game_start [] []))
  = leaderboard (after_sessions [6; 15; 3] (game_start [] [])).
Proof.
  refine (proj2 (sessions_keep_best_only [6; 15; 3] [15; 3; 6]
                   (game_start [] []) _ _ _ _)).
  - intros a. do 5 (destruct a as [|a]; [cbn; lia|]). cbn. destruct a; lia.
  - intros i Hi. do 4 (destruct i as [|i]; [cbn; lia|]). lia.
  - repeat constructor; lia.
  - apply (Permutation_cons_app [15; 3] [] 6). apply Permutation_refl.
Defined.

Lemma after_sessions_cell5 scores :
  forall st, eeprom (after_sessions scores st) 5%nat = eeprom st 5%nat.
Proof.
  induction scores as [|s rest IH]; intros st; [reflexivity|].
  rewrite after_sessions_cons, IH, recordSession_cells.
  unfold scan_cells. cbn [Nat.ltb Nat.leb]. now rewrite andb_false_r.
Qed.

Lemma showHighScores_trace_notified sc m :
  notified (showHighScores_trace sc m) = (sc >? m 5%nat).
Proof.
  unfold showHighScores_trace. rewrite !notified_app, scan_trace_silent.
  destruct (sc >? m 5%nat); reflexivity.
Qed.

(** X17.  The threshold of the notice never moves: whatever sessions
    have been recorded, a session shows "New High Score!" exactly when
    its score exceeds what cell 5 held before all of them (so never, for
    a score up to 255, when that cell was erased to 255). *)
Theorem notice_threshold_never_moves scores s st :
  notified (run_trace (recordSession s) (after_sessions scores st))
  = (s >? eeprom st 5%nat).
Proof.
  rewrite recordSession_run_trace, showHighScores_trace_notified.
  now rewrite after_sessions_cell5.
Qed.

(** ** The ledger through whole runs *)

Lemma loop_keeps_ledger_ranked_witness :
  bytes (eeprom (exec (loop 9)
                   (game_start ["*"; "1"; "7"; "0"; "*"; "5"; "*"]%char
                      [0; 1; 0; 0; 1; 1]))) /\
  ranked (eeprom (exec (loop 9)
                    (game_start ["*"; "1"; "7"; "0"; "*"; "5"; "*"]%char
                       [0; 1; 0; 0; 1; 1]))).
Proof.
  apply (loop_keeps_ledger_ranked 9
           (game_start ["*"; "1"; "7"; "0"; "*"; "5"; "*"]%char
              [0; 1; 0; 0; 1; 1])).
  - intros a. do 5 (destruct a as [|a]; [cbn; lia|]). cbn. destruct a; lia.
  - intros i Hi. do 4 (destruct i as [|i]; [cbn; lia|]). lia.
Defined.

Lemma debugMode_keeps_ledger_ranked_witness :
  bytes (eeprom (exec (debugMode 9)
                   (game_start ["*"; "*"; "9"; "*"]%char [0; 1; 0]))) /\
  ranked (eeprom (exec (debugMode 9)
                    (game_start ["*"; "*"; "9"; "*"]%char [0; 1; 0]))).
Proof.
  apply (debugMode_keeps_ledger_ranked 9
           (game_start ["*"; "*"; "9"; "*"]%char [0; 1; 0])).
  - intros a. do 5 (destruct a as [|a]; [cbn; lia|]). cbn. destruct a; lia.
  - intros i Hi. do 4 (destruct i as [|i]; [cbn; lia|]). lia.
Defined.

(** * The door controller: proofs *)

Module DoorFacts.

Import Door.

Lemma door_bind_returns {A B} (m : M A) (k : A -> M B) st b st' :
  bind m k st = (Some b, st') ->
  exists a st1, m st = (Some a, st1) /\ k a st1 = (Some b, st').
Proof.
  unfold bind. destruct (m st) as [[a|] st1]; [|discriminate].
  intros H. exists a, st1. split; [reflexivity|exact H].
Qed.

Lemma door_bind_run {A B} (m : M A) (k : A -> M B) st a st1 :
  m st = (Some a, st1) -> bind m k st = k a st1.
Proof. intros H. unfold bind. now rewrite H. Qed.

Lemma door_run_trace_app {A} (m : M A) st tr :
  trace (exec m st) = trace st ++ tr -> run_trace m st = tr.
Proof.
  intros H. unfold run_trace. rewrite H.
  rewrite skipn_app, skipn_all, Nat.sub_diag. reflexivity.
Qed.

(** ** The sweeps of [door_status] *)

Lemma door_status_lower_run n :
  forall st,
    door_status_lower n st
    = (Some tt, set_trace (trace st ++ sweep (down_from n)) (set_pos (-1) st)).
Proof.
  induction n as [|p IH]; intros [ps pr wf pi tr].
  - cbn. now rewrite app_nil_r.
  - cbn [door_status_lower]. unfold bind at 1. cbn [put_pos].
    unfold bind at 1. cbn [emit]. unfold bind at 1. cbn [delay emit].
    rewrite IH. unfold down_from, sweep.
    rewrite seq_S, rev_app_distr. cbn -[Z.of_nat].
    rewrite <- !app_assoc. reflexivity.
Qed.

Lemma door_status_raise_run n :
  forall from st,
    door_status_raise n from st
    = (Some tt, set_trace (trace st ++ sweep (up_from from n))
                  (set_pos (Z.of_nat (from + n)) st)).
Proof.
  induction n as [|n IH]; intros from [ps pr wf pi tr].
  - cbn -[Z.of_nat]. now rewrite app_nil_r, Nat.add_0_r.
  - cbn [door_status_raise]. unfold bind at 1. cbn [put_pos].
    unfold bind at 1. cbn [emit]. unfold bind at 1. cbn [delay emit].
    rewrite IH. unfold up_from, sweep, set_trace, set_pos. cbn -[Z.of_nat].
    rewrite <- !app_assoc. replace (S (from + n))%nat with (from + S n)%nat by lia.
    reflexivity.
Qed.

Lemma door_status_closed_run st :
  door_status_closed st
  = (Some tt, set_trace (trace st ++ sweep (down_from 181) ++ closed_events)
                (set_pos (-1) st)).
Proof.
  unfold door_status_closed.
  rewrite (door_bind_run _ _ _ _ _ (door_status_lower_run 181 st)).
  destruct st. unfold bind, emit. cbn -[down_from sweep].
  rewrite <- !app_assoc. reflexivity.
Qed.

(** ** Fields after an update *)

Lemma trace_set_trace v st : trace (set_trace v st) = v.
Proof. now destruct st. Qed.

Lemma trace_set_pos v st : trace (set_pos v st) = trace st.
Proof. now destruct st. Qed.

Lemma pir_set_trace v st : pir (set_trace v st) = pir st.
Proof. now destruct st. Qed.

Lemma pir_set_pos v st : pir (set_pos v st) = pir st.
Proof. now destruct st. Qed.

Lemma wifi_set_trace v st : wifi (set_trace v st) = wifi st.
Proof. now destruct st. Qed.

Lemma wifi_set_pos v st : wifi (set_pos v st) = wifi st.
Proof. now destruct st. Qed.

Lemma pos_set_trace v st : pos (set_trace v st) = pos st.
Proof. now destruct st. Qed.

Lemma pos_set_pos v st : pos (set_pos v st) = v.
Proof. now destruct st. Qed.

Create Rewrite HintDb door_fields.

#[local] Hint Rewrite trace_set_trace trace_set_pos pir_set_trace pir_set_pos
  wifi_set_trace wifi_set_pos pos_set_trace pos_set_pos : door_fields.


(** ** The loop of [door_status] *)

Lemma show_status_run status motion st :
  show_status status motion st
  = (Some tt,
     set_trace (trace st ++ [DisplayClear; DisplaySetCursor 0 10;
                             DisplayPrint "Door status: ";
                             DisplayPrintln status; DisplayPrint motion;
                             DisplayShow]) st).
Proof.
  destruct st. unfold show_status, bind, emit. cbn.
  rewrite <- !app_assoc. reflexivity.
Qed.

(** One pass of the loop, on the reading it takes. *)
Lemma door_status_hold_step fuel timeout st :
  timeout <> 0 ->
  door_status_hold (S fuel) timeout st
  = match pir st with
    | [] =>
        door_status_hold fuel (timeout - 1)
          (set_trace (trace st ++ poll_events false) (set_pirStat LOW st))
    | r :: rest =>
        door_status_hold fuel (if r then 5 else timeout - 1)
          (set_trace (trace st ++ poll_events r)
             (set_pirStat (if r then HIGH else LOW) (set_pir rest st)))
    end.
Proof.
  intros Ht. cbn [door_status_hold].
  destruct (Z.eqb_spec timeout 0) as [|_]; [contradiction|].
  destruct st as [ps pr wf pi tr].
  destruct pi as [|[|] rest];
    unfold bind, show_status, digitalRead_PIR, put_pirStat, delay, emit, ret,
      poll_events;
    cbn -[door_status_hold]; rewrite <- ?app_assoc; reflexivity.
Qed.

Lemma settled_low quiet reads :
  settled quiet reads -> settled (S quiet) (false :: reads).
Proof.
  intros [-> | (before & ->)]; [left; reflexivity|].
  right. exists (false :: before). reflexivity.
Qed.

Lemma settled_high quiet reads :
  settled 5 reads -> settled quiet (true :: reads).
Proof.
  intros [-> | (before & ->)]; right.
  - exists []. reflexivity.
  - exists (true :: before). reflexivity.
Qed.

(** The loop of [door_status], when it ends: it has taken readings until
    the sensor had read [LOW] as many times in a row as the timeout
    asked for, five after a [HIGH]. *)
Lemma door_status_hold_spec fuel :
  forall timeout st u st',
    door_status_hold fuel timeout st = (Some u, st') ->
    0 <= timeout <= 5 ->
    exists n,
      settled (Z.to_nat timeout) (readings n (pir st)) /\
      trace st' = trace st ++ flat_map poll_events (readings n (pir st)) /\
      pir st' = skipn n (pir st) /\ pos st' = pos st /\ wifi st' = wifi st.
Proof.
  induction fuel as [|fuel IH]; intros timeout st u st' H Ht.
  - cbn [door_status_hold] in H. destruct (Z.eqb_spec timeout 0) as [->|];
      [|discriminate H]. injection H as _ <-. exists 0%nat.
    repeat split; [left; reflexivity|cbn; now rewrite app_nil_r].
  - destruct (Z.eq_dec timeout 0) as [->|Hne].
    + cbn in H. injection H as _ <-. exists 0%nat.
      repeat split; [left; reflexivity|cbn; now rewrite app_nil_r].
    + rewrite door_status_hold_step in H by exact Hne.
      replace (Z.to_nat timeout) with (S (Z.to_nat (timeout - 1))) by lia.
      destruct st as [ps pr wf [|r rest] tr]; cbn [pir] in H;
        (apply IH in H as (n & Hset & Htr & Hp & Hpos & Hw);
           [|try destruct r; lia]);
        cbn [pir trace pos wifi set_trace set_pirStat set_pir]
          in Hset, Htr, Hp, Hpos, Hw |- *;
        exists (S n); cbn [readings flat_map skipn].
      * repeat split; try assumption.
        -- apply settled_low. exact Hset.
        -- rewrite Htr, <- app_assoc. reflexivity.
        -- rewrite Hp. destruct n; reflexivity.
      * repeat split; try assumption.
        -- destruct r; [apply settled_high|apply settled_low]; exact Hset.
        -- rewrite Htr, <- app_assoc. reflexivity.
Qed.

(** The loop ends as soon as the fuel covers the recorded readings and
    five more. *)
Lemma door_status_hold_returns fuel :
  forall timeout st,
    0 <= timeout <= 5 ->
    (List.length (pir st) + 5 <= fuel)%nat \/
    (pir st = [] /\ (Z.to_nat timeout <= fuel)%nat) ->
    fst (door_status_hold fuel timeout st) = Some tt.
Proof.
  induction fuel as [|fuel IH]; intros timeout st Ht Hfuel.
  - destruct Hfuel as [Hfuel|[_ Hfuel]]; [lia|].
    assert (timeout = 0) as -> by lia. reflexivity.
  - destruct (Z.eq_dec timeout 0) as [->|Hne]; [reflexivity|].
    rewrite door_status_hold_step by exact Hne.
    destruct st as [ps pr wf [|r rest] tr]; cbn [pir] in *.
    + apply IH; [lia|]. right. cbn [pir set_trace set_pirStat].
      split; [reflexivity|]. destruct Hfuel as [Hfuel|[_ Hfuel]]; cbn in *; lia.
    + apply IH; [destruct r; lia|]. left. cbn [pir set_trace set_pirStat set_pir].
      destruct Hfuel as [Hfuel|[Hnil _]]; [cbn in Hfuel; lia|discriminate Hnil].
Qed.

(** Whether it ends or not, the loop sends nothing to the servo. *)
Lemma door_status_hold_angles fuel :
  forall timeout st,
    exists tr,
      trace (exec (door_status_hold fuel timeout) st) = trace st ++ tr /\
      angles tr = [].
Proof.
  induction fuel as [|fuel IH]; intros timeout st.
  - exists []. unfold exec. cbn [door_status_hold].
    destruct (timeout =? 0); cbn; now rewrite app_nil_r.
  - destruct (Z.eq_dec timeout 0) as [->|Hne].
    + exists []. cbn. now rewrite app_nil_r.
    + unfold exec. rewrite door_status_hold_step by exact Hne.
      destruct st as [ps pr wf [|r rest] tr];
        cbn [pir trace set_trace set_pirStat set_pir];
        match goal with |- context [door_status_hold fuel ?t ?s] =>
          destruct (IH t s) as (tr' & Htr & Hang) end;
        unfold exec in Htr; cbn [trace set_trace set_pirStat set_pir] in Htr;
        eexists; (split; [cbn [trace]; rewrite Htr, <- app_assoc; reflexivity|]);
        unfold angles in *; rewrite flat_map_app, Hang;
        try destruct r; reflexivity.
Qed.

Lemma readings_length n : forall record, List.length (readings n record) = n.
Proof.
  induction n as [|n IH]; intros [|r rest]; cbn; try reflexivity;
    now rewrite IH.
Qed.

Lemma angles_app tr1 tr2 : angles (tr1 ++ tr2) = angles tr1 ++ angles tr2.
Proof. unfold angles. apply flat_map_app. Qed.

Lemma angles_sweep positions : angles (sweep positions) = positions.
Proof.
  induction positions as [|p l IH]; [reflexivity|].
  cbn. unfold angles, sweep in IH. now rewrite IH.
Qed.

Lemma angles_polls reads : angles (flat_map poll_events reads) = [].
Proof.
  induction reads as [|r l IH]; [reflexivity|].
  cbn [flat_map]. rewrite angles_app, IH. destruct r; reflexivity.
Qed.

Lemma waits_app tr1 tr2 : waits (tr1 ++ tr2) = waits tr1 ++ waits tr2.
Proof. unfold waits. apply flat_map_app. Qed.

Lemma waits_polls reads :
  waits (flat_map poll_events reads) = repeat 1000 (List.length reads).
Proof.
  induction reads as [|r l IH]; [reflexivity|].
  cbn [flat_map]. rewrite waits_app, IH. destruct r; reflexivity.
Qed.

Lemma settled_length quiet reads :
  (quiet <= 5)%nat -> settled quiet reads -> (quiet <= List.length reads)%nat.
Proof.
  intros Hq [-> | (before & ->)].
  - now rewrite repeat_length.
  - rewrite length_app. cbn. lia.
Qed.

Lemma down_from_range n a : In a (down_from n) -> 0 <= a < Z.of_nat n.
Proof.
  unfold down_from. intros H. apply in_map_iff in H as (p & <- & Hp).
  rewrite <- in_rev in Hp. apply in_seq in Hp. lia.
Qed.

Lemma up_from_range from n a :
  In a (up_from from n) -> Z.of_nat from <= a < Z.of_nat (from + n).
Proof.
  unfold up_from. intros H. apply in_map_iff in H as (p & <- & Hp).
  apply in_seq in Hp. lia.
Qed.

(** X20.  A run of [door_status(true)] that returns has swept the servo
    up from 0 to 180 degrees, has then polled the motion sensor once a
    second until it had read [LOW] five times in a row (from the start,
    or after the last [HIGH]), and has then swept the servo down from 180
    to 0 and shown the door closed: the door stays open for at least
    five seconds after the last motion, and ends closed. *)
Theorem door_status_open_cycle fuel st u st' :
  door_status fuel true st = (Some u, st') ->
  exists n,
    settled 5 (readings n (pir st)) /\ (5 <= n)%nat /\
    run_trace (door_status fuel true) st
    = sweep (up_from 0 181) ++ flat_map poll_events (readings n (pir st))
      ++ sweep (down_from 181) ++ closed_events /\
    angles (run_trace (door_status fuel true) st)
    = up_from 0 181 ++ down_from 181 /\
    pir st' = skipn n (pir st) /\ pos st' = -1.
Proof.
  intros H. pose proof H as Hrun. unfold door_status in H. cbn [negb] in H.
  rewrite (door_bind_run _ _ _ _ _ (door_status_raise_run 181 0 st)) in H.
  apply door_bind_returns in H as (u1 & st1 & Hhold & H).
  apply door_status_hold_spec in Hhold as (n & Hset & Htr & Hp & _ & _); [|lia].
  autorewrite with door_fields in Hset, Htr, Hp.
  rewrite door_status_closed_run in H.
  apply (f_equal snd) in H. cbn [snd] in H. subst st'.
  change (Z.to_nat 5) with 5%nat in Hset.
  assert (run_trace (door_status fuel true) st
          = sweep (up_from 0 181) ++ flat_map poll_events (readings n (pir st))
            ++ sweep (down_from 181) ++ closed_events) as Htrace.
  { apply door_run_trace_app. unfold exec. rewrite Hrun. cbn [snd].
    autorewrite with door_fields. rewrite Htr, <- !app_assoc. reflexivity. }
  exists n. split; [exact Hset|]. split.
  - pose proof (settled_length 5 _ (le_n 5) Hset) as Hlen.
    now rewrite readings_length in Hlen.
  - split; [exact Htrace|]. split.
    + rewrite Htrace, !angles_app, !angles_sweep, angles_polls.
      change (angles closed_events) with (@nil Z).
      rewrite app_nil_r. reflexivity.
    + autorewrite with door_fields. split; [exact Hp|reflexivity].
Qed.

Lemma door_status_open_cycle_witness :
  exists n,
    settled 5 (readings n [false; true; false]) /\ (5 <= n)%nat /\
    run_trace (door_status 20 true) (mkState 0 0 [] [false; true; false] [])
    = sweep (up_from 0 181)
      ++ flat_map poll_events (readings n [false; true; false])
      ++ sweep (down_from 181) ++ closed_events /\
    angles (run_trace (door_status 20 true)
              (mkState 0 0 [] [false; true; false] []))
    = up_from 0 181 ++ down_from 181 /\
    pir (exec (door_status 20 true) (mkState 0 0 [] [false; true; false] []))
    = skipn n [false; true; false] /\
    pos (exec (door_status 20 true) (mkState 0 0 [] [false; true; false] []))
    = -1.
Proof.
  refine (door_status_open_cycle 20 (mkState 0 0 [] [false; true; false] []) tt
            (exec (door_status 20 true)
               (mkState 0 0 [] [false; true; false] [])) _).
  vm_compute. reflexivity.
Defined.

(** X21.  [door_status(true)] returns once the sensor has been quiet for
    five readings: with the recorded readings and five more covered by
    the fuel, the call returns. *)
Theorem door_status_open_returns fuel st :
  (List.length (pir st) + 5 <= fuel)%nat ->
  fst (door_status fuel true st) = Some tt.
Proof.
  intros Hfuel. unfold door_status. cbn [negb].
  rewrite (door_bind_run _ _ _ _ _ (door_status_raise_run 181 0 st)).
  remember (set_trace (trace st ++ sweep (up_from 0 181))
              (set_pos (Z.of_nat (0 + 181)) st)) as st0 eqn:Hst0.
  assert (pir st0 = pir st) as Hpir
    by (rewrite Hst0; now autorewrite with door_fields).
  assert (fst (door_status_hold fuel 5 st0) = Some tt) as Hhold.
  { apply door_status_hold_returns; [lia|]. left. rewrite Hpir. exact Hfuel. }
  unfold bind at 1.
  destruct (door_status_hold fuel 5 st0) as [[[]|] st1]; [|discriminate Hhold].
  rewrite door_status_closed_run. reflexivity.
Qed.

Lemma door_status_open_returns_witness :
  fst (door_status 9 true (mkState 0 0 [] [true; false; true] [])) = Some tt.
Proof.
  apply (door_status_open_returns 9 (mkState 0 0 [] [true; false; true] [])).
  cbn. lia.
Defined.

Lemma angles_in_range_app (l1 l2 : list Z) :
  Forall (fun a => 0 <= a <= 180) l1 -> Forall (fun a => 0 <= a <= 180) l2 ->
  Forall (fun a => 0 <= a <= 180) (l1 ++ l2).
Proof. intros H1 H2. apply Forall_app. split; assumption. Qed.

Lemma down_from_in_range : Forall (fun a => 0 <= a <= 180) (down_from 181).
Proof. apply Forall_forall. intros a Ha. apply down_from_range in Ha. lia. Qed.

Lemma up_from_in_range : Forall (fun a => 0 <= a <= 180) (up_from 0 181).
Proof. apply Forall_forall. intros a Ha. apply up_from_range in Ha. lia. Qed.

(** X22.  Whatever the sensor reads and whether the call returns or is
    still waiting, every angle [door_status] sends to the servo is
    between 0 and 180 degrees; [pos] itself ends at -1, which is never
    sent. *)
Theorem door_status_angles_in_range fuel isOpen st :
  Forall (fun a => 0 <= a <= 180)
    (angles (run_trace (door_status fuel isOpen) st)).
Proof.
  destruct isOpen; unfold door_status; cbn [negb].
  - assert (exists tr,
              trace (exec (door_status_raise 181 0 ;;
                           door_status_hold fuel 5 ;; door_status_closed)%door st)
              = trace st ++ tr /\
              (angles tr = up_from 0 181 \/
               angles tr = up_from 0 181 ++ down_from 181)) as (tr & Htr & Hang).
    { unfold exec.
      rewrite (door_bind_run _ _ _ _ _ (door_status_raise_run 181 0 st)).
      remember (set_trace (trace st ++ sweep (up_from 0 181))
                  (set_pos (Z.of_nat (0 + 181)) st)) as st0 eqn:Hst0.
      assert (trace st0 = trace st ++ sweep (up_from 0 181)) as Ht0
        by (rewrite Hst0; now autorewrite with door_fields).
      destruct (door_status_hold_angles fuel 5 st0) as (tr & Htr & Hang).
      unfold exec in Htr. unfold bind at 1.
      destruct (door_status_hold fuel 5 st0) as [[[]|] st1]; cbn [snd] in Htr.
      - rewrite door_status_closed_run. cbn [snd].
        autorewrite with door_fields.
        exists (sweep (up_from 0 181) ++ tr ++ sweep (down_from 181)
                ++ closed_events).
        split; [rewrite Htr, Ht0, <- !app_assoc; reflexivity|].
        right. rewrite !angles_app, !angles_sweep, Hang. reflexivity.
      - cbn [snd]. exists (sweep (up_from 0 181) ++ tr).
        split; [rewrite Htr, Ht0, <- !app_assoc; reflexivity|].
        left. rewrite !angles_app, !angles_sweep, Hang. apply app_nil_r. }
    rewrite (door_run_trace_app _ _ _ Htr).
    destruct Hang as [-> | ->].
    + apply up_from_in_range.
    + apply angles_in_range_app; [apply up_from_in_range|apply down_from_in_range].
  - rewrite (door_run_trace_app _ st (sweep (down_from 181) ++ closed_events)).
    + rewrite angles_app, angles_sweep. cbn [angles closed_events flat_map app].
      rewrite app_nil_r. apply down_from_in_range.
    + unfold exec. rewrite door_status_closed_run. cbn [snd].
      now autorewrite with door_fields.
Qed.

(** The loop does not end while the sensor reads [HIGH]. *)
Lemma door_status_hold_motion fuel :
  forall timeout st rest,
    timeout <> 0 ->
    pir st = repeat true fuel ++ rest ->
    fst (door_status_hold fuel timeout st) = None.
Proof.
  induction fuel as [|fuel IH]; intros timeout st rest Ht Hpir.
  - cbn [door_status_hold].
    destruct (Z.eqb_spec timeout 0) as [|_]; [contradiction|reflexivity].
  - rewrite door_status_hold_step by exact Ht.
    destruct st as [ps pr wf pi tr]. cbn [pir repeat app] in Hpir |- *.
    subst pi. apply (IH 5 _ rest); [discriminate|reflexivity].
Qed.

(** X23.  The door is not closed while there is motion: as long as the
    sensor reads [HIGH] at every poll, [door_status(true)] is still in
    its loop, and the servo has only been swept up from 0 to 180
    degrees. *)
Theorem door_status_stays_open_while_motion fuel st rest :
  pir st = repeat true fuel ++ rest ->
  fst (door_status fuel true st) = None /\
  angles (run_trace (door_status fuel true) st) = up_from 0 181.
Proof.
  intros Hpir. unfold run_trace, exec, door_status. cbn [negb].
  rewrite (door_bind_run _ _ _ _ _ (door_status_raise_run 181 0 st)).
  remember (set_trace (trace st ++ sweep (up_from 0 181))
              (set_pos (Z.of_nat (0 + 181)) st)) as st0 eqn:Hst0.
  assert (pir st0 = repeat true fuel ++ rest) as Hpir0
    by (rewrite Hst0; autorewrite with door_fields; exact Hpir).
  assert (trace st0 = trace st ++ sweep (up_from 0 181)) as Ht0
    by (rewrite Hst0; now autorewrite with door_fields).
  pose proof (door_status_hold_motion fuel 5 st0 rest ltac:(discriminate) Hpir0)
    as Hnone.
  destruct (door_status_hold_angles fuel 5 st0) as (tr & Htr & Hang).
  unfold exec in Htr. unfold bind at 1 2.
  destruct (door_status_hold fuel 5 st0) as [[[]|] st1];
    [discriminate Hnone|]. cbn [fst snd] in *.
  split; [reflexivity|].
  rewrite Htr, Ht0, <- app_assoc, skipn_app, skipn_all, Nat.sub_diag.
  cbn [skipn app]. rewrite angles_app, angles_sweep, Hang. apply app_nil_r.
Qed.

Lemma door_status_stays_open_while_motion_witness :
  fst (door_status 3 true (mkState 0 0 [] [true; true; true; false] []))
  = None /\
  angles (run_trace (door_status 3 true)
            (mkState 0 0 [] [true; true; true; false] []))
  = up_from 0 181.
Proof.
  apply (door_status_stays_open_while_motion 3
           (mkState 0 0 [] [true; true; true; false] []) [false]).
  reflexivity.
Defined.

(** ** [connect_wifi] *)

Lemma failed_polls_bound polls :
  forall record, (failed_polls polls record <= polls)%nat.
Proof.
  induction polls as [|p IH]; intros [|[|] rest]; cbn; try lia;
    match goal with |- (S (failed_polls p ?r) <= S p)%nat =>
      specialize (IH r); lia end.
Qed.

Lemma failed_polls_all polls :
  forall record,
    (failed_polls polls record =? polls)%nat
    = negb (connects_within polls record).
Proof.
  unfold connects_within.
  induction polls as [|p IH]; intros [|[|] rest]; cbn; try reflexivity.
  - rewrite IH, firstn_nil. reflexivity.
  - apply IH.
Qed.

(** The loop of [connect_wifi]: it always ends, online when a poll found
    the connection before the timer ran out. *)
Lemma connect_wifi_wait_run timer :
  forall ps pr wf pi tr,
    exists wf',
      connect_wifi_wait timer (mkState ps pr wf pi tr)
      = (Some (connects_within (S timer) wf),
         mkState ps pr wf' pi
           (tr ++ retry_events (failed_polls (S timer) wf)
               ++ (if connects_within (S timer) wf then []
                   else verdict_events false))).
Proof.
  induction timer as [|timer IH]; intros ps pr wf pi tr.
  - destruct wf as [|[|] rest]; eexists;
      unfold connect_wifi_wait, bind, WiFi_connected, delay, emit, ret;
      cbn; rewrite <- ?app_assoc, ?app_nil_r; reflexivity.
  - destruct wf as [|[|] rest].
    + destruct (IH ps pr [] pi ((tr ++ [Delay 500]) ++ [SerialPrint "."]))
        as (wf' & Hrun).
      exists wf'. cbn [connect_wifi_wait]. unfold bind at 1.
      cbn [WiFi_connected]. unfold bind at 1. cbn [delay emit].
      unfold bind at 1. cbn [emit]. rewrite Hrun.
      unfold connects_within. rewrite !firstn_nil.
      cbn [failed_polls retry_events repeat List.concat existsb].
      rewrite <- !app_assoc. reflexivity.
    + eexists. cbn [connect_wifi_wait]. unfold bind at 1.
      cbn [WiFi_connected ret]. cbn. rewrite app_nil_r. reflexivity.
    + destruct (IH ps pr rest pi ((tr ++ [Delay 500]) ++ [SerialPrint "."]))
        as (wf' & Hrun).
      exists wf'. cbn [connect_wifi_wait]. unfold bind at 1.
      cbn [WiFi_connected]. unfold bind at 1. cbn [delay emit].
      unfold bind at 1. cbn [emit]. rewrite Hrun.
      unfold connects_within.
      cbn [failed_polls retry_events repeat List.concat existsb firstn orb].
      rewrite <- !app_assoc. reflexivity.
Qed.

Lemma connect_wifi_run ps pr wf pi tr :
  exists wf',
    connect_wifi (mkState ps pr wf pi tr)
    = (Some tt,
       mkState ps pr wf' pi
         (tr ++ [SerialPrint "Connecting to "; SerialPrintln ssid; WifiBegin]
             ++ retry_events (failed_polls 16 wf)
             ++ verdict_events (connects_within 16 wf))).
Proof.
  destruct (connect_wifi_wait_run 15 ps pr wf pi
              (((tr ++ [SerialPrint "Connecting to "])
                  ++ [SerialPrintln ssid]) ++ [WifiBegin])) as (wf' & Hrun).
  exists wf'. unfold connect_wifi.
  do 3 (unfold bind at 1; cbn [emit]). unfold bind at 1. rewrite Hrun.
  destruct (connects_within 16 wf).
  - unfold bind, delay, emit. cbn [verdict_events].
    rewrite <- !app_assoc. cbn [app]. reflexivity.
  - cbn [ret verdict_events]. rewrite <- !app_assoc. reflexivity.
Qed.

Lemma waits_retry failed : waits (retry_events failed) = repeat 500 failed.
Proof.
  induction failed as [|f IH]; [reflexivity|].
  unfold retry_events in *. cbn [repeat List.concat]. rewrite waits_app, IH.
  reflexivity.
Qed.

Lemma angles_retry failed : angles (retry_events failed) = [].
Proof.
  induction failed as [|f IH]; [reflexivity|].
  unfold retry_events in *. cbn [repeat List.concat]. rewrite angles_app, IH.
  reflexivity.
Qed.

Lemma displayed_app tr1 tr2 :
  displayed (tr1 ++ tr2) = displayed tr1 ++ displayed tr2.
Proof. unfold displayed. apply flat_map_app. Qed.

Lemma displayed_retry failed : displayed (retry_events failed) = [].
Proof.
  induction failed as [|f IH]; [reflexivity|].
  unfold retry_events in *. cbn [repeat List.concat]. rewrite displayed_app, IH.
  reflexivity.
Qed.

(** X24.  [connect_wifi] always returns, and gives up after sixteen
    polls of [WiFi.status()]: it waits half a second after each poll
    without connection, at most sixteen times, and then 750 ms on its
    verdict, which is online exactly when one of the first sixteen
    polls found the connection.  It sends nothing to the servo. *)
Theorem connect_wifi_gives_up_after_16_polls st :
  fst (connect_wifi st) = Some tt /\
  (exists failed,
     (failed <= 16)%nat /\
     (failed = 16%nat <-> connects_within 16 (wifi st) = false) /\
     waits (run_trace connect_wifi st) = repeat 500 failed ++ [750]) /\
  displayed (run_trace connect_wifi st)
  = [if connects_within 16 (wifi st) then "Board is online."%string
     else "Board is offline."%string] /\
  angles (run_trace connect_wifi st) = [] /\
  pos (exec connect_wifi st) = pos st.
Proof.
  destruct st as [ps pr wf pi tr]. cbn [wifi pos].
  destruct (connect_wifi_run ps pr wf pi tr) as (wf' & Hrun).
  assert (run_trace connect_wifi (mkState ps pr wf pi tr)
          = [SerialPrint "Connecting to "; SerialPrintln ssid; WifiBegin]
              ++ retry_events (failed_polls 16 wf)
              ++ verdict_events (connects_within 16 wf)) as Htrace.
  { apply door_run_trace_app. unfold exec. rewrite Hrun. reflexivity. }
  rewrite Htrace, Hrun. unfold exec. rewrite Hrun. cbn [fst snd pos].
  split; [reflexivity|]. split; [|split; [|split; [|reflexivity]]].
  - exists (failed_polls 16 wf). split; [apply failed_polls_bound|]. split.
    + rewrite <- Nat.eqb_eq, failed_polls_all.
      destruct (connects_within 16 wf); cbn; split; congruence.
    + rewrite !waits_app, waits_retry.
      destruct (connects_within 16 wf); reflexivity.
  - rewrite !displayed_app, displayed_retry.
    destruct (connects_within 16 wf); reflexivity.
  - rewrite !angles_app, angles_retry.
    destruct (connects_within 16 wf); reflexivity.
Qed.

(** ** [setup] *)

(** X25.  [setup] returns exactly when the display could be started.
    It then has driven the servo down from 180 to 0 degrees, whatever
    the network did, and shows the door closed; when the display fails
    it stops for good before the servo is moved or the network is
    tried. *)
Theorem setup_closes_the_door_or_halts display_ok st :
  fst (setup display_ok st) = (if display_ok then Some tt else None) /\
  angles (run_trace (setup display_ok) st)
  = (if display_ok then down_from 181 else []) /\
  pos (exec (setup display_ok) st) = (if display_ok then -1 else pos st) /\
  (if display_ok then
     exists before,
       run_trace (setup display_ok) st = before ++ closed_events
   else
     run_trace (setup display_ok) st
     = [SerialBegin 115200; ServoAttach;
        SerialPrintln "SSD1306 allocation failed"]).
Proof.
  destruct st as [ps pr wf pi tr]. destruct display_ok.
  - destruct (connect_wifi_run ps pr wf pi
                (tr ++ [SerialBegin 115200; ServoAttach; SpiBegin; RfidInit;
                        Delay 2000; PinModeInput; DisplayClear;
                        DisplaySetTextSize 1; DisplaySetTextColor;
                        DisplaySetCursor 0 10])) as (wf' & Hwifi).
    assert (setup true (mkState ps pr wf pi tr)
            = (Some tt,
               mkState (-1) pr wf' pi
                 (tr ++ ([SerialBegin 115200; ServoAttach; SpiBegin; RfidInit;
                          Delay 2000; PinModeInput; DisplayClear;
                          DisplaySetTextSize 1; DisplaySetTextColor;
                          DisplaySetCursor 0 10]
                         ++ [SerialPrint "Connecting to "; SerialPrintln ssid;
                             WifiBegin]
                         ++ retry_events (failed_polls 16 wf)
                         ++ verdict_events (connects_within 16 wf)
                         ++ sweep (down_from 181))
                     ++ closed_events))) as Hrun.
    { unfold setup. cbn [negb].
      do 2 (unfold bind at 1; cbn [emit]). unfold bind at 1. cbn [ret].
      do 8 (unfold bind at 1; cbn [emit delay]).
      unfold bind at 1. rewrite <- !app_assoc. cbn [app].
      rewrite <- !app_assoc in Hwifi. cbn [app] in Hwifi. rewrite Hwifi.
      unfold door_status. cbn [negb]. rewrite door_status_closed_run.
      cbn [set_trace set_pos trace].
      repeat progress (cbn [app]; rewrite <- ?app_assoc). reflexivity. }
    unfold exec. rewrite (door_run_trace_app _ _ _ (f_equal (fun r => trace (snd r)) Hrun)).
    rewrite Hrun. cbn [fst snd pos].
    split; [reflexivity|]. split; [|split; [reflexivity|eexists; reflexivity]].
    rewrite !angles_app, angles_retry, angles_sweep.
    destruct (connects_within 16 wf); cbn -[down_from]; apply app_nil_r.
  - assert (setup false (mkState ps pr wf pi tr)
            = (None,
               mkState ps pr wf pi
                 (tr ++ [SerialBegin 115200; ServoAttach;
                         SerialPrintln "SSD1306 allocation failed"])))
      as Hrun.
    { unfold setup. cbn [negb].
      do 2 (unfold bind at 1; cbn [emit]). unfold bind at 1.
      unfold bind at 1. cbn [emit]. cbn [spin].
      rewrite <- !app_assoc. reflexivity. }
    unfold exec.
    rewrite (door_run_trace_app _ _ _ (f_equal (fun r => trace (snd r)) Hrun)).
    rewrite Hrun. repeat split.
Qed.

End DoorFacts.
